(** * simple/stats/importer.py: the simple statistics importer

    A shallow embedding of [SimpleStatsImporter] and of the fragment of
    pandas it drives, followed by the properties of the import pipeline
    (read, clean, resolve, reshape, write).

    Conventions of the embedding.
    - A Python [str] is a [string]; every character is read as one code
      point below 256, which fixes what [str.strip] removes.
    - A data frame is its list of column labels and its list of rows; a row
      carries its index label (pandas drops rows by label) and its cells.
    - A Python [dict] is an association list in insertion order.
    - The methods of the importer mutate [self]; they are functions in a
      state-and-exception monad over the importer's fields and the files
      written so far.
    - The module [constants] is not part of the embedded file: its values
      are the fields of a record the definitions are parameterised by.
    - [column = df.iloc[:, 0]] is a view of the frame: replacing in the
      column in place replaces in the frame. *)

From Stdlib Require Import List String Ascii Bool Arith Permutation.
Import ListNotations.
Open Scope string_scope.
Open Scope list_scope.

Set Implicit Arguments.

(** ** Python strings *)

Module Str.

(** [s.startswith(p)] *)
Definition startswith (s p : string) : bool := String.prefix p s.

(** [s[n:]] *)
Fixpoint slice_from (n : nat) (s : string) : string :=
  match n, s with
  | O, _ => s
  | S _, EmptyString => EmptyString
  | S k, String _ t => slice_from k t
  end.

(** [c.isspace()] for a code point below 256. *)
Definition isspace (a : ascii) : bool :=
  let n := nat_of_ascii a in
  (((9 <=? n) && (n <=? 13)) || ((28 <=? n) && (n <=? 32))
   || (n =? 133) || (n =? 160))%nat.

Fixpoint lstrip (s : string) : string :=
  match s with
  | EmptyString => EmptyString
  | String a t => if isspace a then lstrip t else s
  end.

Fixpoint rstrip (s : string) : string :=
  match s with
  | EmptyString => EmptyString
  | String a t =>
      match rstrip t with
      | EmptyString => if isspace a then EmptyString else String a EmptyString
      | r => String a r
      end
  end.

(** [s.strip()] *)
Definition strip (s : string) : string := rstrip (lstrip s).

(** [x in l] for a list of strings. *)
Definition mem (x : string) (l : list string) : bool :=
  existsb (String.eqb x) l.

(** [os.path.join(a, b)] on POSIX paths. *)
Definition ends_with_slash (s : string) : bool :=
  match String.get (String.length s - 1) s with
  | Some a => Ascii.eqb a "/"%char
  | None => false
  end.

Definition os_path_join (a b : string) : string :=
  if startswith b "/" then b
  else if (String.length a =? 0)%nat || ends_with_slash a then String.append a b
  else String.append a (String.append "/" b).

End Str.

(** ** Python dictionaries, in insertion order *)

Module Dict.

Definition dict (V : Type) : Type := list (string * V).

Section Ops.
Variable V : Type.

(** [d.get(k)] *)
Fixpoint get (k : string) (d : dict V) : option V :=
  match d with
  | [] => None
  | (k', v) :: t => if String.eqb k k' then Some v else get k t
  end.

(** [d[k] = v]: an existing key keeps its place, a new key goes last. *)
Fixpoint set (k : string) (v : V) (d : dict V) : dict V :=
  match d with
  | [] => [(k, v)]
  | (k', v') :: t =>
      if String.eqb k k' then (k', v) :: t else (k', v') :: set k v t
  end.

Definition keys (d : dict V) : list string := map fst d.
Definition values (d : dict V) : list V := map snd d.

(** [{k1: v1, k2: v2, ...}] *)
Definition literal (items : list (string * V)) : dict V :=
  fold_left (fun d kv => set (fst kv) (snd kv) d) items [].

(** The keys of a dictionary are distinct. *)
Fixpoint distinct_keys (d : dict V) : bool :=
  match d with
  | [] => true
  | (k, _) :: t => negb (Str.mem k (keys t)) && distinct_keys t
  end.

End Ops.

End Dict.

Import Dict.

(** ** Python sets of strings

    [list(s)] enumerates a set in an order fixed by the hashes of its
    elements, and string hashes change with the interpreter's hash seed.
    The embedding keeps a set as any list of its elements and takes the
    enumeration as a parameter of the run, known only to list every element
    once. *)

Record SetIteration : Type := {
  iterate : list string -> list string;
  iterate_NoDup : forall l, NoDup (iterate l);
  iterate_In : forall l x, In x (iterate l) <-> In x l
}.

(** [set(a).difference(set(b))] *)
Definition set_difference (a b : list string) : list string :=
  filter (fun x => negb (Str.mem x b)) a.

(** Two enumerations, one the reverse of the other. *)
Definition forward_order : SetIteration :=
  {| iterate := nodup string_dec;
     iterate_NoDup := NoDup_nodup string_dec;
     iterate_In := fun l x => nodup_In string_dec l x |}.

Definition backward_order : SetIteration :=
  {| iterate := fun l => rev (nodup string_dec l);
     iterate_NoDup := fun l => NoDup_rev (NoDup_nodup string_dec l);
     iterate_In := fun l x =>
       iff_trans (iff_sym (in_rev (nodup string_dec l) x))
                 (nodup_In string_dec l x) |}.

(** ** Exceptions *)

Inductive exception : Type :=
| KeyError | IndexError | AttributeError | ValueError | OSError.

Inductive result (A : Type) : Type :=
| Ok (a : A)
| Raise (e : exception).

Arguments Ok {A} a.
Arguments Raise {A} e.

Definition rbind {A B : Type} (r : result A) (k : A -> result B) : result B :=
  match r with
  | Ok a => k a
  | Raise e => Raise e
  end.

(** ** The fragment of pandas the importer uses *)

Module Pandas.

(** A cell: missing ([NaN]), a text, or a number kept by its literal (the
    importer never computes on numbers). *)
Inductive cell : Type :=
| NaN
| Str (s : string)
| Num (literal : string).

Definition isna (v : cell) : bool :=
  match v with
  | NaN => true
  | _ => false
  end.

(** A row: its index label and its cells, one per column. *)
Definition row : Type := nat * list cell.

Record DataFrame : Type := {
  columns : list string;
  rows : list row
}.

(** [pd.DataFrame()] *)
Definition empty : DataFrame := {| columns := []; rows := [] |}.

(** The content of a CSV file: the header line and the records. *)
Record csv : Type := {
  header : list string;
  records : list (list cell)
}.

(** Labels [0 .. n-1] on a list of records. *)
Definition range_index (l : list (list cell)) : list row :=
  combine (seq 0 (List.length l)) l.

(** [pd.read_csv(file)] on the parsed content of the file. *)
Definition read_csv (f : csv) : DataFrame :=
  {| columns := header f; rows := range_index (records f) |}.

(** [df.to_csv(path, index=False)]: the content written. *)
Definition to_csv (d : DataFrame) : csv :=
  {| header := columns d; records := map snd (rows d) |}.

(** The position of the first column with a label. *)
Fixpoint position (name : string) (cols : list string) : option nat :=
  match cols with
  | [] => None
  | c :: t =>
      if String.eqb name c then Some 0
      else match position name t with
           | Some n => Some (S n)
           | None => None
           end
  end.

(** The cell of a row under a column label, missing if the label is. *)
Definition cell_at (cols : list string) (name : string) (cells : list cell)
  : cell :=
  match position name cols with
  | Some n => nth n cells NaN
  | None => NaN
  end.

(** Cells of a row rearranged to the labels [new], by name. *)
Definition realign (old new : list string) (r : row) : row :=
  (fst r, map (fun name => cell_at old name (snd r)) new).

(** [pd.concat([a, b])]: rows of [a] then rows of [b], each keeping its
    index label; columns are the union in order of appearance. *)
Definition concat (a b : DataFrame) : DataFrame :=
  let cols :=
    columns a ++ filter (fun x => negb (Str.mem x (columns a))) (columns b) in
  {| columns := cols;
     rows := map (realign (columns a) cols) (rows a)
             ++ map (realign (columns b) cols) (rows b) |}.

(** Cells of a row at the positions where [keep] holds of the label. *)
Fixpoint select_cells (keep : string -> bool) (cols : list string)
  (cells : list cell) : list cell :=
  match cols, cells with
  | c :: cols', v :: cells' =>
      if keep c then v :: select_cells keep cols' cells'
      else select_cells keep cols' cells'
  | _, _ => []
  end.

(** [df.drop(columns=labels)]: [KeyError] if a label is not a column. *)
Definition drop_columns (labels : list string) (d : DataFrame)
  : result DataFrame :=
  if forallb (fun l => Str.mem l (columns d)) labels then
    let keep := fun x => negb (Str.mem x labels) in
    Ok {| columns := filter keep (columns d);
          rows := map (fun r => (fst r, select_cells keep (columns d) (snd r)))
                      (rows d) |}
  else Raise KeyError.

(** [a[i] = x] on an array: [IndexError] out of range. *)
Fixpoint array_set {A : Type} (i : nat) (x : A) (a : list A)
  : result (list A) :=
  match i, a with
  | _, [] => Raise IndexError
  | O, _ :: t => Ok (x :: t)
  | S k, y :: t => rbind (array_set k x t) (fun t' => Ok (y :: t'))
  end.

(** [df.iloc[:, 0]]: [IndexError] on a frame with no column. *)
Definition iloc_column0 (d : DataFrame) : result (list cell) :=
  match columns d with
  | [] => Raise IndexError
  | _ :: _ => Ok (map (fun r => hd NaN (snd r)) (rows d))
  end.

(** [column.replace(mapping)] on one value: every key is compared with the
    value as it was before the call, so replacements do not chain. *)
Definition replace_cell (mapping : dict string) (v : cell) : cell :=
  match v with
  | Str s =>
      match Dict.get s mapping with
      | Some s' => Str s'
      | None => v
      end
  | _ => v
  end.

Definition map_column0 (f : cell -> cell) (r : row) : row :=
  match snd r with
  | v :: t => (fst r, f v :: t)
  | [] => r
  end.

(** [df.iloc[:, 0].replace(mapping, inplace=True)] seen from the frame. *)
Definition replace_column0 (mapping : dict string) (d : DataFrame)
  : DataFrame :=
  {| columns := columns d;
     rows := map (map_column0 (replace_cell mapping)) (rows d) |}.

(** [v in values] as [Series.isin] tests it. *)
Definition isin (values : list string) (v : cell) : bool :=
  match v with
  | Str s => Str.mem s values
  | _ => false
  end.

(** [df[df.iloc[:, 0].isin(values)].index] *)
Definition index_where_column0_isin (values : list string) (d : DataFrame)
  : list nat :=
  map fst (filter (fun r => isin values (hd NaN (snd r))) (rows d)).

Definition mem_label (l : nat) (labels : list nat) : bool :=
  existsb (Nat.eqb l) labels.

(** [df.drop(labels)]: every row carrying one of the labels goes. *)
Definition drop_index (labels : list nat) (d : DataFrame) : DataFrame :=
  {| columns := columns d;
     rows := filter (fun r => negb (mem_label (fst r) labels)) (rows d) |}.

(** [pd.DataFrame({k1: col1, k2: col2, ...})] for columns of one length. *)
Definition from_dict (d : dict (list cell)) : DataFrame :=
  let n := match d with
           | [] => 0
           | (_, col) :: _ => List.length col
           end in
  {| columns := Dict.keys d;
     rows := map (fun i => (i, map (fun col => nth i col NaN) (Dict.values d)))
                 (seq 0 n) |}.

(** [df.melt(id_vars, var_name, value_name)]: one row per value column and
    per row, value columns outermost, under a fresh index.  [KeyError] if
    an identifier column is missing, [ValueError] if [value_name] is
    already a column. *)
Definition melt (id_vars : list string) (var_name value_name : string)
  (d : DataFrame) : result DataFrame :=
  if negb (forallb (fun x => Str.mem x (columns d)) id_vars) then
    Raise KeyError
  else if Str.mem value_name (columns d) then Raise ValueError
  else
    let value_vars :=
      filter (fun x => negb (Str.mem x id_vars)) (columns d) in
    let long :=
      flat_map
        (fun var =>
           map (fun r =>
                  map (fun x => cell_at (columns d) x (snd r)) id_vars
                  ++ [Str var; cell_at (columns d) var (snd r)])
               (rows d))
        value_vars in
    Ok {| columns := id_vars ++ [var_name; value_name];
          rows := range_index long |}.

(** [df.dropna()]: rows with a missing cell in any column go. *)
Definition dropna (d : DataFrame) : DataFrame :=
  {| columns := columns d;
     rows := filter (fun r => negb (existsb isna (snd r))) (rows d) |}.

Fixpoint has_duplicates (l : list string) : bool :=
  match l with
  | [] => false
  | x :: t => Str.mem x t || has_duplicates t
  end.

(** [df.reindex(columns=labels)]: columns picked by label, a label that is
    not a column gives a column of missing cells; [ValueError] when the
    frame has duplicate column labels. *)
Definition reindex_columns (labels : list string) (d : DataFrame)
  : result DataFrame :=
  if has_duplicates (columns d) then Raise ValueError
  else Ok {| columns := labels;
             rows := map (realign (columns d) labels) (rows d) |}.

End Pandas.

Import Pandas.

(** ** The importer *)

(** The values of the module [constants]. *)
Record Constants : Type := {
  OBSERVATIONS_FILE_NAME : string;
  DEBUG_RESOLVE_FILE_NAME : string;
  UNPIVOT_VARIABLES : bool;
  COLUMN_DCID : string;
  COLUMN_DATE : string;
  COLUMN_VARIABLE : string;
  COLUMN_VALUE : string;
  DCID_OVERRIDE_PREFIX : string;
  DC_BROWSER : string;
  DEBUG_UNRESOLVED_DCID : string;
  DEBUG_COLUMN_NAME : string;
  DEBUG_COLUMN_DCID : string;
  DEBUG_COLUMN_LINK : string
}.

(** What a run finds around it: the input files, the resolution service
    ([dc.resolve_entities]), which paths can be created or written, and the
    enumeration order of string sets in this interpreter. *)
Record World : Type := {
  isdir : string -> bool;
  listdir : string -> list string;
  file_content : string -> result csv;
  resolve_entities : list string -> string -> result (dict string);
  can_makedirs : string -> bool;
  can_write : string -> bool;
  set_iteration : SetIteration
}.

(** The fields of [self]. *)
Record SimpleStatsImporter : Type := {
  input_path : string;
  output_dir : string;
  observations_file : string;
  debug_resolve_file : string;
  entity_type : string;
  ignore_columns : list string;
  df : DataFrame;
  debug_resolve_df : option DataFrame
}.

(** What the run did outside of [self], oldest first: directories ensured,
    files written, calls made to the resolution service. *)
Record Effects : Type := {
  directories : list string;
  files : list (string * csv);
  resolver_calls : list (list string * string)
}.

Definition no_effects : Effects :=
  {| directories := []; files := []; resolver_calls := [] |}.

Definition state : Type := SimpleStatsImporter * Effects.

(** Computations that read and update [self], act outside of it and may
    raise; the state reached when an exception is raised is kept. *)
Definition M (A : Type) : Type := state -> result A * state.

Definition ret {A : Type} (a : A) : M A := fun s => (Ok a, s).

Definition bind {A B : Type} (m : M A) (k : A -> M B) : M B :=
  fun s =>
    match m s with
    | (Ok a, s') => k a s'
    | (Raise e, s') => (Raise e, s')
    end.

Definition lift {A : Type} (r : result A) : M A := fun s => (r, s).

Definition get_self : M SimpleStatsImporter := fun s => (Ok (fst s), s).

(** [self.df = d] and [self.debug_resolve_df = d] *)
Definition with_df (d : DataFrame) (self : SimpleStatsImporter)
  : SimpleStatsImporter :=
  {| input_path := input_path self;
     output_dir := output_dir self;
     observations_file := observations_file self;
     debug_resolve_file := debug_resolve_file self;
     entity_type := entity_type self;
     ignore_columns := ignore_columns self;
     df := d;
     debug_resolve_df := debug_resolve_df self |}.

Definition with_debug_resolve_df (d : DataFrame) (self : SimpleStatsImporter)
  : SimpleStatsImporter :=
  {| input_path := input_path self;
     output_dir := output_dir self;
     observations_file := observations_file self;
     debug_resolve_file := debug_resolve_file self;
     entity_type := entity_type self;
     ignore_columns := ignore_columns self;
     df := df self;
     debug_resolve_df := Some d |}.

Definition set_df (d : DataFrame) : M unit :=
  fun s => (Ok tt, (with_df d (fst s), snd s)).

Definition set_debug_resolve_df (d : DataFrame) : M unit :=
  fun s => (Ok tt, (with_debug_resolve_df d (fst s), snd s)).

Declare Scope importer_scope.
Delimit Scope importer_scope with importer.
Notation "x <- m ;; k" := (bind m (fun x => k))
  (at level 61, m at next level, right associativity) : importer_scope.
Notation "m ;; k" := (bind m (fun _ => k))
  (at level 61, right associativity) : importer_scope.

Section Importer.

Variable c : Constants.
Variable w : World.

Local Open Scope importer_scope.

(** [SimpleStatsImporter(input_path, output_dir, entity_type,
    ignore_columns)] *)
Definition __init__ (input_path output_dir entity_type : string)
  (ignore_columns : list string) : SimpleStatsImporter :=
  {| input_path := input_path;
     output_dir := output_dir;
     observations_file :=
       Str.os_path_join output_dir (OBSERVATIONS_FILE_NAME c);
     debug_resolve_file :=
       Str.os_path_join output_dir (DEBUG_RESOLVE_FILE_NAME c);
     entity_type := entity_type;
     ignore_columns := ignore_columns;
     df := Pandas.empty;
     debug_resolve_df := None |}.

(** [os.makedirs(path, exist_ok=True)] *)
Definition makedirs (path : string) : M unit :=
  fun s =>
    if can_makedirs w path then
      (Ok tt, (fst s, {| directories := directories (snd s) ++ [path];
                         files := files (snd s);
                         resolver_calls := resolver_calls (snd s) |}))
    else (Raise OSError, s).

(** [frame.to_csv(path, index=False)] *)
Definition write_csv (frame : DataFrame) (path : string) : M unit :=
  fun s =>
    if can_write w path then
      (Ok tt, (fst s, {| directories := directories (snd s);
                         files := files (snd s) ++ [(path, to_csv frame)];
                         resolver_calls := resolver_calls (snd s) |}))
    else (Raise OSError, s).

(** [dc.resolve_entities(entities=entities, entity_type=entity_type)] *)
Definition dc_resolve_entities (entities : list string) (entity_type : string)
  : M (dict string) :=
  fun s =>
    (resolve_entities w entities entity_type,
     (fst s, {| directories := directories (snd s);
                files := files (snd s);
                resolver_calls :=
                  resolver_calls (snd s) ++ [(entities, entity_type)] |})).

Definition _init : M unit :=
  self <- get_self ;;
  makedirs (output_dir self).

Definition _read_csvs_from_dir (input_dir : string) : result DataFrame :=
  let files := map (Str.os_path_join input_dir) (listdir w input_dir) in
  fold_left
    (fun acc file =>
       rbind acc (fun d =>
       rbind (file_content w file) (fun f =>
       Ok (concat d (read_csv f)))))
    files (Ok Pandas.empty).

Definition _read_csvs : M unit :=
  self <- get_self ;;
  if isdir w (input_path self) then
    d <- lift (_read_csvs_from_dir (input_path self)) ;;
    set_df d
  else
    f <- lift (file_content w (input_path self)) ;;
    set_df (read_csv f).

Definition _drop_ignored_columns : M unit :=
  self <- get_self ;;
  match ignore_columns self with
  | [] => ret tt
  | _ :: _ =>
      d <- lift (drop_columns (ignore_columns self) (df self)) ;;
      set_df d
  end.

Definition rename_column (i : nat) (name : string) : M unit :=
  self <- get_self ;;
  cols <- lift (array_set i name (columns (df self))) ;;
  set_df {| columns := cols; rows := rows (df self) |}.

Definition _rename_columns : M unit :=
  rename_column 0 (COLUMN_DCID c) ;;
  if UNPIVOT_VARIABLES c then rename_column 1 (COLUMN_DATE c) else ret tt.

(** The closure [remove_pre_resolved] of [_resolve_entities]: the
    dictionary it fills is threaded through. *)
Definition remove_pre_resolved (entity : cell)
  (pre_resolved_entities : dict string) : result (bool * dict string) :=
  match entity with
  | Str e =>
      if Str.startswith e (DCID_OVERRIDE_PREFIX c) then
        Ok (false,
            Dict.set e
              (Str.strip
                 (Str.slice_from (String.length (DCID_OVERRIDE_PREFIX c)) e))
              pre_resolved_entities)
      else Ok (true, pre_resolved_entities)
  | _ => Raise AttributeError
  end.

(** [list(filter(remove_pre_resolved, column.tolist()))] together with the
    dictionary the closure leaves. *)
Fixpoint filter_entities (column : list cell)
  (pre_resolved_entities : dict string)
  : result (list string * dict string) :=
  match column with
  | [] => Ok ([], pre_resolved_entities)
  | v :: t =>
      rbind (remove_pre_resolved v pre_resolved_entities) (fun bd =>
      rbind (filter_entities t (snd bd)) (fun ed =>
      Ok (match v, fst bd with
          | Str e, true => e :: fst ed
          | _, _ => fst ed
          end, snd ed)))
  end.

Definition browser_link (dcid : string) : string :=
  if String.eqb dcid (DEBUG_UNRESOLVED_DCID c) then ""
  else String.append (DC_BROWSER c) (String.append "/" dcid).

(** The three columns [names], [dcids], [links]. *)
Definition debug_resolve_columns (resolved pre_resolved : dict string)
  (unresolved : list string) : list string * list string * list string :=
  let names := unresolved ++ Dict.keys pre_resolved ++ Dict.keys resolved in
  let dcids :=
    repeat (DEBUG_UNRESOLVED_DCID c) (List.length unresolved)
    ++ Dict.values pre_resolved ++ Dict.values resolved in
  let links := map browser_link dcids in
  (names, dcids, links).

Definition _create_debug_resolve_dataframe
  (resolved pre_resolved : dict string) (unresolved : list string) : M unit :=
  let '(names, dcids, links) :=
    debug_resolve_columns resolved pre_resolved unresolved in
  set_debug_resolve_df
    (from_dict
       (Dict.literal
          [(DEBUG_COLUMN_NAME c, map Str names);
           (DEBUG_COLUMN_DCID c, map Str dcids);
           (DEBUG_COLUMN_LINK c, map Str links)])).

Definition _resolve_entities : M unit :=
  self <- get_self ;;
  column <- lift (iloc_column0 (df self)) ;;
  ep <- lift (filter_entities column []) ;;
  let entities := fst ep in
  let pre_resolved_entities := snd ep in
  dcids <- dc_resolve_entities entities (entity_type self) ;;
  set_df (replace_column0 dcids (df self)) ;;
  let unresolved :=
    set_difference entities (Dict.keys dcids) in
  let unresolved_list := iterate (set_iteration w) unresolved in
  self <- get_self ;;
  set_df (replace_column0 pre_resolved_entities (df self)) ;;
  self <- get_self ;;
  match unresolved_list with
  | [] => ret tt
  | _ :: _ =>
      set_df (drop_index (index_where_column0_isin unresolved_list (df self))
                         (df self))
  end ;;
  _create_debug_resolve_dataframe dcids pre_resolved_entities unresolved_list.

Definition _unpivot_variables : M unit :=
  self <- get_self ;;
  long <- lift (melt [COLUMN_DCID c; COLUMN_DATE c]
                     (COLUMN_VARIABLE c) (COLUMN_VALUE c) (df self)) ;;
  set_df (dropna long).

Definition _reorder_columns : M unit :=
  self <- get_self ;;
  d <- lift (reindex_columns
               [COLUMN_DCID c; COLUMN_VARIABLE c; COLUMN_DATE c;
                COLUMN_VALUE c] (df self)) ;;
  set_df d.

Definition _write_csvs : M unit :=
  self <- get_self ;;
  write_csv (df self) (observations_file self) ;;
  match debug_resolve_df self with
  | Some audit => write_csv audit (debug_resolve_file self)
  | None => ret tt
  end.

Definition do_import : M unit :=
  _init ;;
  _read_csvs ;;
  _drop_ignored_columns ;;
  _rename_columns ;;
  _resolve_entities ;;
  (if UNPIVOT_VARIABLES c then
     _unpivot_variables ;;
     _reorder_columns
   else ret tt) ;;
  _write_csvs.

End Importer.

(** ** Vocabulary of the statements *)

(** The entity reference of a row, and the row with another one. *)
Definition entity (r : row) : cell := hd NaN (snd r).

Definition with_entity (v : cell) (r : row) : row := (fst r, v :: tl (snd r)).

(** The identifier an override reference stands for. *)
Definition override_dcid (c : Constants) (e : string) : string :=
  Str.strip (Str.slice_from (String.length (DCID_OVERRIDE_PREFIX c)) e).

(** An override reference carries the override prefix. *)
Definition is_override (c : Constants) (e : string) : bool :=
  Str.startswith e (DCID_OVERRIDE_PREFIX c).

(** The dictionary the closure of [_resolve_entities] has filled after the
    names [names], starting from [pre0]. *)
Definition overrides (c : Constants) (names : list string)
  (pre0 : dict string) : dict string :=
  fold_left
    (fun d e =>
       if is_override c e then Dict.set e (override_dcid c e) d else d)
    names pre0.

(** The names sent to the resolver: those that are not overrides. *)
Definition candidates (c : Constants) (names : list string) : list string :=
  filter (fun e => negb (is_override c e)) names.

(** The unresolved names of a run, as a set. *)
Definition unresolved_names (entities : list string) (dcids : dict string)
  : list string :=
  set_difference entities (Dict.keys dcids).

(** The number of distinct strings of a list. *)
Definition distinct (l : list string) : nat :=
  List.length (nodup string_dec l).

(** The same world under another enumeration order of sets. *)
Definition with_set_iteration (o : SetIteration) (w : World) : World :=
  {| isdir := isdir w;
     listdir := listdir w;
     file_content := file_content w;
     resolve_entities := resolve_entities w;
     can_makedirs := can_makedirs w;
     can_write := can_write w;
     set_iteration := o |}.

(** A row after the two replacements in the entity column. *)
Definition rewrite_row (dcids pre : dict string) (r : row) : row :=
  map_column0 (replace_cell pre) (map_column0 (replace_cell dcids) r).

(** The rows that keep their place when the labels [dropped] go. *)
Definition kept (dropped : list nat) (l : list row) : list row :=
  filter (fun r => negb (mem_label (fst r) dropped)) l.

(** The frame after both replacements, before rows are dropped. *)
Definition rewritten (dcids pre : dict string) (d : DataFrame) : DataFrame :=
  replace_column0 pre (replace_column0 dcids d).

(** The frame once the rows holding a name of [U] are dropped. *)
Definition without_unresolved (U : list string) (d : DataFrame) : DataFrame :=
  match U with
  | [] => d
  | _ :: _ => drop_index (index_where_column0_isin U d) d
  end.

(** The audit frame [_create_debug_resolve_dataframe] builds. *)
Definition audit_frame (c : Constants) (resolved pre_resolved : dict string)
  (unresolved : list string) : DataFrame :=
  let '(names, dcids, links) :=
    debug_resolve_columns c resolved pre_resolved unresolved in
  from_dict
    (Dict.literal
       [(DEBUG_COLUMN_NAME c, map Str names);
        (DEBUG_COLUMN_DCID c, map Str dcids);
        (DEBUG_COLUMN_LINK c, map Str links)]).

(** The effects once the resolver has been called. *)
Definition after_call (entities : list string) (entity_type : string)
  (fx : Effects) : Effects :=
  {| directories := directories fx;
     files := files fx;
     resolver_calls := resolver_calls fx ++ [(entities, entity_type)] |}.

(** The stages of [do_import] before the columns are dropped, and those
    before the files are written. *)
Definition loading (w : World) : M unit :=
  bind (_init w) (fun _ => _read_csvs w).

Definition before_writing (c : Constants) (w : World) : M unit :=
  bind (_init w) (fun _ =>
  bind (_read_csvs w) (fun _ =>
  bind _drop_ignored_columns (fun _ =>
  bind (_rename_columns c) (fun _ =>
  bind (_resolve_entities c w) (fun _ =>
  if UNPIVOT_VARIABLES c
  then bind (_unpivot_variables c) (fun _ => _reorder_columns c)
  else ret tt))))).

(** A computation leaves the relation [R] between the states before and
    after it, whatever it returns. *)
Definition preserves (R : state -> state -> Prop) (A : Type) (m : M A)
  : Prop :=
  forall s, R s (snd (m s)).

(** Nothing was written, and the paths to write to are the same. *)
Definition same_outputs (s s' : state) : Prop :=
  files (snd s') = files (snd s)
  /\ observations_file (fst s') = observations_file (fst s)
  /\ debug_resolve_file (fst s') = debug_resolve_file (fst s).

(** Moreover the audit frame is the same. *)
Definition same_audit (s s' : state) : Prop :=
  same_outputs s s'
  /\ debug_resolve_df (fst s') = debug_resolve_df (fst s).

(** The stages of [do_import] before and after [_resolve_entities]. *)
Definition before_resolving (c : Constants) (w : World) : M unit :=
  bind (_init w) (fun _ =>
  bind (_read_csvs w) (fun _ =>
  bind _drop_ignored_columns (fun _ => _rename_columns c))).

Definition reshape_if_enabled (c : Constants) : M unit :=
  if UNPIVOT_VARIABLES c
  then bind (_unpivot_variables c) (fun _ => _reorder_columns c)
  else ret tt.

Definition after_resolving (c : Constants) (w : World) : M unit :=
  bind (reshape_if_enabled c) (fun _ => _write_csvs w).

(** The audit record of an unresolved name. *)
Definition unresolved_record (c : Constants) (name : string) : list cell :=
  [Str name; Str (DEBUG_UNRESOLVED_DCID c); Str ""].

(** Two audit frames that differ at most in the order of the records of
    the unresolved names, which come first. *)
Definition same_up_to_unresolved_order (c : Constants) (a1 a2 : DataFrame)
  : Prop :=
  columns a1 = columns a2
  /\ exists U1 U2 rest,
       Permutation U1 U2
       /\ map snd (rows a1) = map (unresolved_record c) U1 ++ rest
       /\ map snd (rows a2) = map (unresolved_record c) U2 ++ rest.



(** The distinct strings of a list, in order of first occurrence. *)
Fixpoint first_occurrences (l : list string) : list string :=
  match l with
  | [] => []
  | x :: t => x :: filter (fun y => negb (String.eqb y x)) (first_occurrences t)
  end.

(** One step of the loop of [_read_csvs_from_dir]. *)
Definition read_next (w : World) (acc : result DataFrame) (file : string)
  : result DataFrame :=
  rbind acc (fun d =>
  rbind (file_content w file) (fun f =>
  Ok (concat d (read_csv f)))).

(** The directories ensured and the calls made to the resolver are the
    same, and so are the output directory and the entity type. *)
Definition same_surroundings (s s' : state) : Prop :=
  directories (snd s') = directories (snd s)
  /\ resolver_calls (snd s') = resolver_calls (snd s)
  /\ output_dir (fst s') = output_dir (fst s)
  /\ entity_type (fst s') = entity_type (fst s).

(** The stages of [do_import] between [_init] and [_resolve_entities]. *)
Definition cleaning (c : Constants) (w : World) : M unit :=
  bind (_read_csvs w) (fun _ =>
  bind _drop_ignored_columns (fun _ => _rename_columns c)).

(** One audit record. *)
Definition audit_record (c : Constants) (name dcid : string) : list cell :=
  [Str name; Str dcid; Str (browser_link c dcid)].

(** ** A sample configuration and sample runs *)

(** Modelled from the spec: the module [constants] is not part of the
    embedded file.  The override prefix and the marker of unresolved names
    are those of the spec's scenario; the remaining values stand for the
    fixed names the spec speaks of. *)
Definition sample_constants : Constants :=
  {| OBSERVATIONS_FILE_NAME := "observations.csv";
     DEBUG_RESOLVE_FILE_NAME := "debug_resolve.csv";
     UNPIVOT_VARIABLES := false;
     COLUMN_DCID := "dcid";
     COLUMN_DATE := "date";
     COLUMN_VARIABLE := "variable";
     COLUMN_VALUE := "value";
     DCID_OVERRIDE_PREFIX := "dcid:";
     DC_BROWSER := "https://browser";
     DEBUG_UNRESOLVED_DCID := "UNRESOLVED";
     DEBUG_COLUMN_NAME := "name";
     DEBUG_COLUMN_DCID := "dcid";
     DEBUG_COLUMN_LINK := "link" |}.

(** A world with one input file, a resolver that returns [mapping], and
    every path writable except those in [read_only]. *)
Definition sample_world (input : csv) (mapping : dict string)
  (read_only : list string) (o : SetIteration) : World :=
  {| isdir := fun _ => false;
     listdir := fun _ => [];
     file_content := fun _ => Ok input;
     resolve_entities := fun _ _ => Ok mapping;
     can_makedirs := fun _ => true;
     can_write := fun p => negb (Str.mem p read_only);
     set_iteration := o |}.

Definition sample_importer : SimpleStatsImporter :=
  __init__ sample_constants "input.csv" "output" "Country" [].

(** The importer once [input] is read. *)
Definition loaded (input : csv) : SimpleStatsImporter :=
  with_df (read_csv input) sample_importer.

(** The table of the spec's scenario. *)
Definition scenario_csv : csv :=
  {| header := ["name"; "val"];
     records := [[Str "e1"; Str "10"]; [Str "e2"; Str "20"];
                 [Str "dcid:X"; Str "30"]] |}.

Definition scenario_mapping : dict string := [("e1", "E1")].

(** A table in which a name resolves to an override reference that is
    itself in the table. *)
Definition chained_csv : csv :=
  {| header := ["name"; "val"];
     records := [[Str "e1"; Str "10"]; [Str "dcid:X"; Str "30"]] |}.

Definition chained_mapping : dict string := [("e1", "dcid:X")].



(** A table with an override reference to the marker of unresolved names. *)
Definition marker_csv : csv :=
  {| header := ["name"; "val"];
     records := [[Str "dcid:UNRESOLVED"; Str "10"]] |}.



Definition reshaping_constants : Constants :=
  {| OBSERVATIONS_FILE_NAME := OBSERVATIONS_FILE_NAME sample_constants;
     DEBUG_RESOLVE_FILE_NAME := DEBUG_RESOLVE_FILE_NAME sample_constants;
     UNPIVOT_VARIABLES := true;
     COLUMN_DCID := COLUMN_DCID sample_constants;
     COLUMN_DATE := COLUMN_DATE sample_constants;
     COLUMN_VARIABLE := COLUMN_VARIABLE sample_constants;
     COLUMN_VALUE := COLUMN_VALUE sample_constants;
     DCID_OVERRIDE_PREFIX := DCID_OVERRIDE_PREFIX sample_constants;
     DC_BROWSER := DC_BROWSER sample_constants;
     DEBUG_UNRESOLVED_DCID := DEBUG_UNRESOLVED_DCID sample_constants;
     DEBUG_COLUMN_NAME := DEBUG_COLUMN_NAME sample_constants;
     DEBUG_COLUMN_DCID := DEBUG_COLUMN_DCID sample_constants;
     DEBUG_COLUMN_LINK := DEBUG_COLUMN_LINK sample_constants |}.

(** A table of two names, none of which resolves. *)
Definition unknown_csv : csv :=
  {| header := ["name"; "val"];
     records := [[Str "e1"; Str "10"]; [Str "e2"; Str "20"]] |}.

(** A world whose input is a directory of two files of one record each;
    the name in the first file does not resolve, the one in the second
    does. *)
Definition directory_world : World :=
  {| isdir := fun _ => true;
     listdir := fun _ => ["a.csv"; "b.csv"];
     file_content := fun p =>
       if String.eqb p "input/a.csv"
       then Ok {| header := ["name"; "val"];
                  records := [[Str "e2"; Str "20"]] |}
       else Ok {| header := ["name"; "val"];
                  records := [[Str "e1"; Str "10"]] |};
     resolve_entities := fun _ _ => Ok scenario_mapping;
     can_makedirs := fun _ => true;
     can_write := fun _ => true;
     set_iteration := forward_order |}.

(** A table with a missing entity reference. *)
Definition nameless_csv : csv :=
  {| header := ["name"; "val"];
     records := [[Str "e1"; Str "10"]; [NaN; Str "20"]] |}.

(** A world whose resolver fails. *)
Definition unreachable_resolver_world (input : csv) : World :=
  {| isdir := fun _ => false;
     listdir := fun _ => [];
     file_content := fun _ => Ok input;
     resolve_entities := fun _ _ => Raise OSError;
     can_makedirs := fun _ => true;
     can_write := fun _ => true;
     set_iteration := forward_order |}.

(** A world whose input is a directory with no file in it. *)
Definition empty_directory_world : World :=
  {| isdir := fun _ => true;
     listdir := fun _ => [];
     file_content := fun _ => Raise OSError;
     resolve_entities := fun _ _ => Ok [];
     can_makedirs := fun _ => true;
     can_write := fun _ => true;
     set_iteration := forward_order |}.

(** A world whose input is a directory of two files, the second of which
    cannot be read. *)
Definition unreadable_file_world : World :=
  {| isdir := fun _ => true;
     listdir := fun _ => ["a.csv"; "b.csv"];
     file_content := fun p =>
       if String.eqb p "input/a.csv" then Ok scenario_csv else Raise OSError;
     resolve_entities := fun _ _ => Ok [];
     can_makedirs := fun _ => true;
     can_write := fun _ => true;
     set_iteration := forward_order |}.


(** The state a computation leaves. *)
Definition self_after {A : Type} (out : result A * state)
  : SimpleStatsImporter := fst (snd out).

Definition effects_after {A : Type} (out : result A * state) : Effects :=
  snd (snd out).

(** ** Strings, dictionaries and sets *)

Lemma mem_true_iff (x : string) (l : list string) :
  Str.mem x l = true <-> In x l.
Proof.
  unfold Str.mem. rewrite existsb_exists. split.
  - intros [y [Hy Heq]]. apply String.eqb_eq in Heq. now subst.
  - intros H. exists x. split; [assumption | apply String.eqb_refl].
Qed.

Lemma mem_false_iff (x : string) (l : list string) :
  Str.mem x l = false <-> ~ In x l.
Proof.
  rewrite <- mem_true_iff. destruct (Str.mem x l); split; intros H;
    try reflexivity; try discriminate; try (intro; discriminate).
  exfalso. now apply H.
Qed.

Lemma mem_label_true_iff (n : nat) (l : list nat) :
  mem_label n l = true <-> In n l.
Proof.
  unfold mem_label. rewrite existsb_exists. split.
  - intros [y [Hy Heq]]. apply Nat.eqb_eq in Heq. now subst.
  - intros H. exists n. split; [assumption | apply Nat.eqb_refl].
Qed.

Section DictFacts.
Variable V : Type.
Implicit Types (d : dict V) (k : string) (v : V).

Lemma get_None_iff k d : Dict.get k d = None <-> ~ In k (Dict.keys d).
Proof.
  induction d as [|[k' v'] t IH]; simpl.
  - tauto.
  - destruct (String.eqb_spec k k') as [-> | Hne].
    + split; [discriminate | intros H; exfalso; apply H; now left].
    + rewrite IH. split; [intros H [E|I]; [now subst | now apply H] | tauto].
Qed.

Lemma get_Some_In k v d : Dict.get k d = Some v -> In (k, v) d.
Proof.
  induction d as [|[k' v'] t IH]; simpl; [discriminate|].
  destruct (String.eqb_spec k k') as [-> | Hne].
  - intros E. injection E as ->. now left.
  - intros E. right. now apply IH.
Qed.

Lemma get_Some_key k v d : Dict.get k d = Some v -> In k (Dict.keys d).
Proof.
  intros H. apply get_Some_In in H. unfold Dict.keys.
  now apply (in_map fst) in H.
Qed.

Lemma get_set k' k v d :
  Dict.get k' (Dict.set k v d) = if String.eqb k' k then Some v else Dict.get k' d.
Proof.
  induction d as [|[k0 v0] t IH]; simpl.
  - reflexivity.
  - destruct (String.eqb_spec k k0) as [-> | Hne]; simpl.
    + destruct (String.eqb_spec k' k0); reflexivity.
    + destruct (String.eqb_spec k' k0) as [-> | Hne'].
      * destruct (String.eqb_spec k0 k); [now subst|reflexivity].
      * apply IH.
Qed.

Lemma keys_set k v d :
  Dict.keys (Dict.set k v d)
  = if Str.mem k (Dict.keys d) then Dict.keys d else Dict.keys d ++ [k].
Proof.
  induction d as [|[k0 v0] t IH]; simpl.
  - reflexivity.
  - destruct (String.eqb_spec k k0) as [-> | Hne]; simpl.
    + reflexivity.
    + rewrite IH. now destruct (Str.mem k (Dict.keys t)).
Qed.

Lemma keys_set_In k v d x :
  In x (Dict.keys (Dict.set k v d)) <-> In x (Dict.keys d) \/ x = k.
Proof.
  rewrite keys_set. destruct (Str.mem k (Dict.keys d)) eqn:E.
  - apply mem_true_iff in E. split; [tauto | intros [H | ->]; assumption].
  - rewrite in_app_iff. simpl. intuition.
Qed.

Lemma keys_set_NoDup k v d :
  NoDup (Dict.keys d) -> NoDup (Dict.keys (Dict.set k v d)).
Proof.
  intros H. rewrite keys_set. destruct (Str.mem k (Dict.keys d)) eqn:E.
  - assumption.
  - apply mem_false_iff in E. apply NoDup_app; auto.
    + repeat constructor. simpl. tauto.
    + intros x Hx [E' | []]. subst. contradiction.
Qed.

Lemma distinct_keys_NoDup d :
  Dict.distinct_keys d = true <-> NoDup (Dict.keys d).
Proof.
  induction d as [|[k v] t IH]; simpl.
  - split; [constructor | reflexivity].
  - rewrite andb_true_iff, negb_true_iff, mem_false_iff, IH.
    split.
    + intros [H1 H2]. now constructor.
    + intros H. inversion H; subst. now split.
Qed.

End DictFacts.

Lemma nodup_length_of_set (l1 l2 : list string) :
  NoDup l1 -> (forall x, In x l1 <-> In x l2) -> List.length l1 = distinct l2.
Proof.
  intros Hnd Hin. unfold distinct.
  apply Permutation_length, NoDup_Permutation.
  - assumption.
  - apply NoDup_nodup.
  - intros x. rewrite nodup_In. apply Hin.
Qed.

Lemma iterate_length (o : SetIteration) (l : list string) :
  List.length (iterate o l) = distinct l.
Proof.
  apply nodup_length_of_set; [apply iterate_NoDup | apply iterate_In].
Qed.

Lemma iterate_nil (o : SetIteration) : iterate o [] = [].
Proof.
  destruct (iterate o []) as [|x t] eqn:E; [reflexivity|].
  exfalso. apply (iterate_In o [] x). rewrite E. now left.
Qed.

Lemma iterate_Permutation (o1 o2 : SetIteration) (l : list string) :
  Permutation (iterate o1 l) (iterate o2 l).
Proof.
  apply NoDup_Permutation; try apply iterate_NoDup.
  intros x. now rewrite !iterate_In.
Qed.

(** ** The closure of [_resolve_entities] *)

Section Overrides.
Variable c : Constants.

Lemma filter_entities_inv (column : list cell) :
  forall pre0 entities pre,
    filter_entities c column pre0 = Ok (entities, pre) ->
    exists names,
      column = map Str names
      /\ entities = candidates c names
      /\ pre = overrides c names pre0.
Proof.
  induction column as [|v t IH]; intros pre0 entities pre H; simpl in H.
  - injection H as <- <-. now exists [].
  - destruct v as [|e|n]; cbn [remove_pre_resolved rbind] in H;
      try discriminate.
    change (Str.startswith e (DCID_OVERRIDE_PREFIX c)) with (is_override c e)
      in H.
    destruct (is_override c e) eqn:Ee; cbn [rbind fst snd] in H.
    + destruct (filter_entities c t _) as [[es p]|] eqn:Et; simpl in H;
        [|discriminate].
      injection H as <- <-. destruct (IH _ _ _ Et) as [names [-> [-> ->]]].
      exists (e :: names). unfold overrides. simpl.
      now rewrite Ee.
    + destruct (filter_entities c t _) as [[es p]|] eqn:Et; simpl in H;
        [|discriminate].
      injection H as <- <-. destruct (IH _ _ _ Et) as [names [-> [-> ->]]].
      exists (e :: names). unfold overrides. simpl.
      now rewrite Ee.
Qed.

Lemma filter_entities_names (names : list string) (pre0 : dict string) :
  filter_entities c (map Str names) pre0
  = Ok (candidates c names, overrides c names pre0).
Proof.
  revert pre0. induction names as [|e t IH]; intros pre0.
  - reflexivity.
  - cbn [map filter_entities remove_pre_resolved].
    change (Str.startswith e (DCID_OVERRIDE_PREFIX c)) with (is_override c e).
    unfold overrides, candidates. cbn [fold_left filter].
    destruct (is_override c e) eqn:Ee; cbn [rbind fst snd negb];
      rewrite IH; reflexivity.
Qed.

Lemma overrides_get (names : list string) :
  forall pre0 x,
    Dict.get x (overrides c names pre0)
    = if Str.mem x names && is_override c x then Some (override_dcid c x)
      else Dict.get x pre0.
Proof.
  induction names as [|e t IH]; intros pre0 x.
  - reflexivity.
  - change (overrides c (e :: t) pre0)
      with (overrides c t (if is_override c e
                         then Dict.set e (override_dcid c e) pre0 else pre0)).
    rewrite IH. unfold Str.mem at 2. cbn [existsb]. fold (Str.mem x t).
    destruct (String.eqb_spec x e) as [-> | Hne].
    + destruct (is_override c e) eqn:Ee; destruct (Str.mem e t); cbn;
        rewrite ?get_set, ?String.eqb_refl; reflexivity.
    + apply String.eqb_neq in Hne.
      destruct (is_override c e) eqn:Ee; destruct (Str.mem x t);
        destruct (is_override c x); cbn; rewrite ?get_set, ?Hne; reflexivity.
Qed.

Lemma overrides_keys_In (names : list string) :
  forall pre0 x,
    In x (Dict.keys (overrides c names pre0))
    <-> In x (Dict.keys pre0) \/ (In x names /\ is_override c x = true).
Proof.
  induction names as [|e t IH]; intros pre0 x.
  - simpl. tauto.
  - change (overrides c (e :: t) pre0)
      with (overrides c t (if is_override c e
                         then Dict.set e (override_dcid c e) pre0 else pre0)).
    rewrite IH. cbn [In]. destruct (is_override c e) eqn:Ee.
    + rewrite keys_set_In. split.
      * intros [[H| ->]|[H1 H2]]; auto.
      * intros [H|[[-> |H1] H2]]; auto.
    + split.
      * intros [H|[H1 H2]]; auto.
      * intros [H|[[-> |H1] H2]]; auto. congruence.
Qed.

Lemma overrides_NoDup (names : list string) :
  forall pre0, NoDup (Dict.keys pre0) ->
               NoDup (Dict.keys (overrides c names pre0)).
Proof.
  induction names as [|e t IH]; intros pre0 H.
  - assumption.
  - change (overrides c (e :: t) pre0)
      with (overrides c t (if is_override c e
                         then Dict.set e (override_dcid c e) pre0 else pre0)).
    apply IH. destruct (is_override c e); [now apply keys_set_NoDup | assumption].
Qed.

Lemma set_In_inv (k v : string) (d : dict string) (kv : string * string) :
  In kv (Dict.set k v d) -> kv = (k, v) \/ In kv d.
Proof.
  induction d as [|[k0 v0] t IH]; simpl.
  - intros [<- |[]]. now left.
  - destruct (String.eqb_spec k k0) as [-> |Hne]; simpl.
    + intros [<- |H]; auto.
    + intros [<- |H]; auto. destruct (IH H); auto.
Qed.

Lemma overrides_values (names : list string) :
  forall pre0,
    (forall kv, In kv pre0 -> snd kv = override_dcid c (fst kv)) ->
    forall kv, In kv (overrides c names pre0) ->
               snd kv = override_dcid c (fst kv).
Proof.
  induction names as [|e t IH]; intros pre0 H0.
  - assumption.
  - change (overrides c (e :: t) pre0)
      with (overrides c t (if is_override c e
                         then Dict.set e (override_dcid c e) pre0 else pre0)).
    apply IH. destruct (is_override c e); [|assumption].
    intros kv Hkv. apply set_In_inv in Hkv. destruct Hkv as [-> |Hkv]; auto.
Qed.

Lemma overrides_values_map (names : list string) :
  Dict.values (overrides c names [])
  = map (override_dcid c) (Dict.keys (overrides c names [])).
Proof.
  assert (H : forall kv, In kv (overrides c names []) ->
                         snd kv = override_dcid c (fst kv)).
  { apply overrides_values. intros kv []. }
  revert H. generalize (overrides c names []). intros d.
  induction d as [|kv t IH]; intros H; simpl.
  - reflexivity.
  - rewrite (H kv (or_introl eq_refl)). f_equal. apply IH.
    intros kv' Hkv'. apply H. now right.
Qed.

End Overrides.

(** ** Running [_resolve_entities] *)

Ltac msimpl :=
  cbn [bind ret lift get_self set_df set_debug_resolve_df with_df
       with_debug_resolve_df fst snd df debug_resolve_df input_path
       output_dir observations_file debug_resolve_file entity_type
       ignore_columns rbind directories files resolver_calls].

Ltac msimpl_in H :=
  cbn [bind ret lift get_self set_df set_debug_resolve_df with_df
       with_debug_resolve_df fst snd df debug_resolve_df input_path
       output_dir observations_file debug_resolve_file entity_type
       ignore_columns rbind directories files resolver_calls] in H.

Section ResolveRun.
Variables (c : Constants) (w : World).
Variables (self : SimpleStatsImporter) (fx : Effects).

Lemma iloc_column0_entity (d : DataFrame) :
  iloc_column0 d
  = match columns d with
    | [] => Raise IndexError
    | _ :: _ => Ok (map entity (rows d))
    end.
Proof. reflexivity. Qed.

(** The run, given the names of the entity column and the mapping the
    resolver returns for the candidates among them. *)
Lemma resolve_entities_run (names : list string) (dcids : dict string) :
  columns (df self) <> [] ->
  map entity (rows (df self)) = map Str names ->
  resolve_entities w (candidates c names) (entity_type self) = Ok dcids ->
  let pre := overrides c names [] in
  let U := iterate (set_iteration w)
                   (unresolved_names (candidates c names) dcids) in
  _resolve_entities c w (self, fx)
  = (Ok tt,
     (with_debug_resolve_df (audit_frame c dcids pre U)
        (with_df (without_unresolved U (rewritten dcids pre (df self))) self),
      after_call (candidates c names) (entity_type self) fx)).
Proof.
  intros Hcols Hnames Hres pre U.
  unfold _resolve_entities. msimpl. rewrite iloc_column0_entity.
  destruct (columns (df self)) as [|c0 cs]; [contradiction|].
  msimpl. rewrite Hnames, filter_entities_names. msimpl.
  unfold dc_resolve_entities. msimpl. rewrite Hres. msimpl.
  fold (unresolved_names (candidates c names) dcids). fold pre U.
  fold (rewritten dcids pre (df self)).
  unfold _create_debug_resolve_dataframe, audit_frame, without_unresolved.
  destruct (debug_resolve_columns c dcids pre U) as [[ns ds] ls].
  destruct U; reflexivity.
Qed.

(** A run that returns has found a text in every cell of the entity column
    and got a mapping from the resolver. *)
Lemma resolve_entities_Ok_inv (self' : SimpleStatsImporter) (fx' : Effects) :
  _resolve_entities c w (self, fx) = (Ok tt, (self', fx')) ->
  exists names dcids,
    columns (df self) <> []
    /\ map entity (rows (df self)) = map Str names
    /\ resolve_entities w (candidates c names) (entity_type self) = Ok dcids.
Proof.
  intros Hrun. unfold _resolve_entities in Hrun. msimpl_in Hrun.
  rewrite iloc_column0_entity in Hrun.
  destruct (columns (df self)) as [|c0 cs] eqn:Ec; [discriminate|].
  msimpl_in Hrun.
  destruct (filter_entities c (map entity (rows (df self))) [])
    as [[es p]|e] eqn:Ef; [|discriminate].
  destruct (filter_entities_inv _ _ _ Ef) as [names [Hn [-> ->]]].
  msimpl_in Hrun. unfold dc_resolve_entities in Hrun. msimpl_in Hrun.
  destruct (resolve_entities w (candidates c names) (entity_type self))
    as [dcids|e] eqn:Er; [|discriminate].
  exists names, dcids. split; [discriminate | split; assumption].
Qed.

End ResolveRun.

(** ** Rows of the resolved frame *)

Section ResolvedRows.
Variables (dcids pre : dict string) (U : list string).

Lemma rewritten_rows (d : DataFrame) :
  rows (rewritten dcids pre d) = map (rewrite_row dcids pre) (rows d).
Proof.
  unfold rewritten, replace_column0. cbn [rows]. now rewrite map_map.
Qed.

Lemma rewrite_row_label (r : row) : fst (rewrite_row dcids pre r) = fst r.
Proof.
  unfold rewrite_row, map_column0. destruct r as [l [|v t]]; reflexivity.
Qed.

Lemma rewrite_row_entity (r : row) (s : string) :
  entity r = Str s ->
  rewrite_row dcids pre r
  = with_entity (replace_cell pre (replace_cell dcids (Str s))) r.
Proof.
  unfold entity, rewrite_row, map_column0, with_entity.
  destruct r as [l [|v t]]; cbn; [discriminate|]. now intros ->.
Qed.

Lemma without_unresolved_rows (d : DataFrame) :
  rows (without_unresolved U d)
  = kept (index_where_column0_isin U d) (rows d).
Proof.
  unfold without_unresolved. destruct U as [|u t]; [|reflexivity].
  assert (E : index_where_column0_isin [] d = []).
  { unfold index_where_column0_isin.
    induction (rows d) as [|r l IH]; [reflexivity|]. cbn [filter].
    destruct (isin [] (hd NaN (snd r))) eqn:Ei; [|exact IH].
    unfold isin in Ei. now destruct (hd NaN (snd r)). }
  rewrite E. unfold kept. cbn [mem_label existsb negb]. symmetry.
  apply forallb_filter_id. now apply forallb_forall.
Qed.

Lemma kept_map_rewrite (dropped : list nat) (l : list row) :
  kept dropped (map (rewrite_row dcids pre) l)
  = map (rewrite_row dcids pre) (kept dropped l).
Proof.
  unfold kept. induction l as [|r t IH]; [reflexivity|].
  cbn [map filter]. rewrite rewrite_row_label, IH.
  now destruct (mem_label (fst r) dropped).
Qed.

(** The resolved frame: the rewritten rows, minus those whose label is the
    label of a row rewritten to a name of [U]. *)
Lemma resolved_rows (d : DataFrame) :
  let dropped := index_where_column0_isin U (rewritten dcids pre d) in
  rows (without_unresolved U (rewritten dcids pre d))
  = map (rewrite_row dcids pre) (kept dropped (rows d)).
Proof.
  intros dropped. rewrite without_unresolved_rows, rewritten_rows.
  apply kept_map_rewrite.
Qed.

Lemma dropped_iff (d : DataFrame) (l : nat) :
  In l (index_where_column0_isin U (rewritten dcids pre d))
  <-> exists r, In r (rows d) /\ fst r = l
                /\ isin U (entity (rewrite_row dcids pre r)) = true.
Proof.
  unfold index_where_column0_isin. rewrite rewritten_rows, in_map_iff.
  split.
  - intros [r' [Hl Hr']]. apply filter_In in Hr'. destruct Hr' as [Hin Hi].
    apply in_map_iff in Hin. destruct Hin as [r [<- Hr]].
    exists r. rewrite rewrite_row_label in Hl. now repeat split.
  - intros [r [Hr [Hl Hi]]]. exists (rewrite_row dcids pre r).
    rewrite rewrite_row_label. split; [assumption|].
    apply filter_In. split; [now apply in_map | exact Hi].
Qed.

Lemma kept_In (dropped : list nat) (l : list row) (r : row) :
  In r (kept dropped l) <-> In r l /\ ~ In (fst r) dropped.
Proof.
  unfold kept. rewrite filter_In, negb_true_iff.
  rewrite <- mem_label_true_iff. now destruct (mem_label (fst r) dropped).
Qed.

(** No row of the resolved frame holds a name of [U]. *)
Lemma resolved_rows_not_isin (d : DataFrame) (r' : row) :
  In r' (rows (without_unresolved U (rewritten dcids pre d))) ->
  isin U (entity r') = false.
Proof.
  rewrite resolved_rows, in_map_iff. intros [r [<- Hr]].
  apply kept_In in Hr. destruct Hr as [Hr Hn].
  destruct (isin U (entity (rewrite_row dcids pre r))) eqn:E; [|reflexivity].
  exfalso. apply Hn. apply dropped_iff. now exists r.
Qed.

(** A row rewritten to a name of [U] leaves no row with its label. *)
Lemma resolved_rows_label_gone (d : DataFrame) (r r' : row) :
  In r (rows d) ->
  isin U (entity (rewrite_row dcids pre r)) = true ->
  In r' (rows (without_unresolved U (rewritten dcids pre d))) ->
  fst r' <> fst r.
Proof.
  intros Hr Hi. rewrite resolved_rows, in_map_iff. intros [r0 [<- Hr0]] E.
  apply kept_In in Hr0. destruct Hr0 as [_ Hn]. apply Hn.
  rewrite rewrite_row_label in E. rewrite E. apply dropped_iff. now exists r.
Qed.

End ResolvedRows.

Lemma rewrite_row_tl (dcids pre : dict string) (r : row) :
  tl (snd (rewrite_row dcids pre r)) = tl (snd r).
Proof.
  unfold rewrite_row, map_column0. destruct r as [l [|v t]]; reflexivity.
Qed.

Lemma Forall2_map_same (A B : Type) (R : A -> B -> Prop) (f : A -> B)
  (l : list A) :
  (forall a, In a l -> R a (f a)) -> Forall2 R l (map f l).
Proof.
  induction l as [|a t IH]; intros H; cbn [map]; constructor.
  - apply H. now left.
  - apply IH. intros a' Ha'. apply H. now right.
Qed.

Lemma NoDup_labels_eq (l : list row) (a b : row) :
  NoDup (map fst l) -> In a l -> In b l -> fst a = fst b -> a = b.
Proof.
  induction l as [|x t IH]; cbn [map]; intros Hnd Ha Hb E; [contradiction|].
  inversion Hnd as [|? ? Hx Ht]; subst.
  destruct Ha as [-> | Ha], Hb as [-> | Hb].
  - reflexivity.
  - exfalso. apply Hx. rewrite E. now apply in_map.
  - exfalso. apply Hx. rewrite <- E. now apply in_map.
  - now apply IH.
Qed.

Lemma unresolved_names_In (entities : list string) (dcids : dict string)
  (x : string) :
  In x (unresolved_names entities dcids)
  <-> In x entities /\ Dict.get x dcids = None.
Proof.
  unfold unresolved_names, set_difference.
  now rewrite filter_In, negb_true_iff, mem_false_iff, get_None_iff.
Qed.

Lemma candidates_In (c : Constants) (names : list string) (x : string) :
  In x (candidates c names) <-> In x names /\ is_override c x = false.
Proof. unfold candidates. now rewrite filter_In, negb_true_iff. Qed.

Lemma overrides_get_nil (c : Constants) (names : list string) (x : string) :
  Dict.get x (overrides c names [])
  = if Str.mem x names && is_override c x then Some (override_dcid c x)
    else None.
Proof. now rewrite overrides_get. Qed.


(** ** Entity resolution *)

Section ResolveEntities.
Variables (c : Constants) (w : World).
Variables (self self' : SimpleStatsImporter) (fx fx' : Effects).
Variables (names : list string) (dcids : dict string).

(** A run of [_resolve_entities] that returns, the names in the entity
    column before it, and the mapping the resolver returns. *)
Hypothesis Hrun : _resolve_entities c w (self, fx) = (Ok tt, (self', fx')).
Hypothesis Hnames : map entity (rows (df self)) = map Str names.
Hypothesis Hres :
  resolve_entities w (candidates c names) (entity_type self) = Ok dcids.

Let pre := overrides c names [].
Let U := iterate (set_iteration w)
                 (unresolved_names (candidates c names) dcids).

Lemma resolve_entities_shape :
  self' = with_debug_resolve_df (audit_frame c dcids pre U)
            (with_df (without_unresolved U (rewritten dcids pre (df self)))
                     self)
  /\ fx' = after_call (candidates c names) (entity_type self) fx.
Proof.
  destruct (resolve_entities_Ok_inv _ _ _ _ Hrun) as [? [? [Hc _]]].
  pose proof (resolve_entities_run c w self fx names Hc Hnames Hres) as E.
  cbv zeta in E. rewrite E in Hrun. injection Hrun as <- <-. now split.
Qed.

Lemma resolved_frame :
  df self' = without_unresolved U (rewritten dcids pre (df self)).
Proof. destruct resolve_entities_shape as [-> _]. reflexivity. Qed.

Lemma U_In (x : string) :
  In x U <-> In x names /\ is_override c x = false /\ Dict.get x dcids = None.
Proof.
  unfold U. rewrite iterate_In, unresolved_names_In, candidates_In. tauto.
Qed.

Lemma pre_get_candidate (x : string) :
  is_override c x = false -> replace_cell pre (Str x) = Str x.
Proof.
  intros H. unfold replace_cell, pre. rewrite overrides_get_nil, H.
  now rewrite andb_false_r.
Qed.

(** C2. Every name of the entity column that carries no override prefix
    and is absent from the resolver's mapping is gone from the output: no
    output row holds it, and no output row carries the label of a row that
    held it. *)
Theorem unresolved_rows_dropped (n : string) :
  In n names -> is_override c n = false -> Dict.get n dcids = None ->
  (forall r', In r' (rows (df self')) -> entity r' <> Str n)
  /\ (forall r r', In r (rows (df self)) -> entity r = Str n ->
                   In r' (rows (df self')) -> fst r' <> fst r).
Proof.
  intros Hn Ho Hg. assert (HU : In n U) by now apply U_In.
  rewrite resolved_frame. split.
  - intros r' Hr' E. apply resolved_rows_not_isin in Hr'.
    rewrite E in Hr'. cbn [isin] in Hr'.
    apply mem_true_iff in HU. congruence.
  - intros r r' Hr E Hr'. apply resolved_rows_label_gone with (r := r) in Hr';
      [assumption | assumption |].
    rewrite (rewrite_row_entity dcids pre r E). unfold with_entity, entity.
    cbn [snd hd]. cbn [replace_cell]. rewrite Hg.
    rewrite (pre_get_candidate n Ho). cbn [isin]. now apply mem_true_iff.
Qed.


Lemma pre_get_not_override_value (d : string) :
  ~ (In d names /\ is_override c d = true) ->
  replace_cell pre (Str d) = Str d.
Proof.
  intros H. unfold replace_cell, pre. rewrite overrides_get_nil.
  destruct (Str.mem d names) eqn:Em; [|reflexivity].
  destruct (is_override c d) eqn:Eo; [|reflexivity].
  exfalso. apply H. split; [now apply mem_true_iff | reflexivity].
Qed.

(** C1, amended. Let the resolver map the name [n] to [d], where [d] is not
    itself an override reference of the entity column.  The output rows are,
    in order, the input rows whose label was not dropped, each with its
    cells other than the entity unchanged, and every one of them that held
    [n] holds [d].  When index labels are distinct and [d] is not an
    unresolved name, every row that held [n] is in the output with [d]. *)
Theorem resolved_rows_rewritten (n d : string) :
  Dict.get n dcids = Some d ->
  ~ (In d names /\ is_override c d = true) ->
  (exists dropped,
      Forall2
        (fun r r' => fst r' = fst r /\ tl (snd r') = tl (snd r)
                     /\ (entity r = Str n -> entity r' = Str d))
        (kept dropped (rows (df self))) (rows (df self')))
  /\ (NoDup (map fst (rows (df self))) ->
      ~ In d (unresolved_names (candidates c names) dcids) ->
      forall r, In r (rows (df self)) -> entity r = Str n ->
                In (with_entity (Str d) r) (rows (df self'))).
Proof.
  intros Hg Hd.
  assert (Hrw : forall r, entity r = Str n ->
                          rewrite_row dcids pre r = with_entity (Str d) r).
  { intros r E. rewrite (rewrite_row_entity dcids pre r E).
    cbn [replace_cell]. rewrite Hg.
    now rewrite (pre_get_not_override_value d Hd). }
  rewrite resolved_frame, resolved_rows. split.
  - eexists. apply Forall2_map_same. intros r _.
    rewrite rewrite_row_label, rewrite_row_tl. repeat split.
    intros E. now rewrite (Hrw r E).
  - intros Hnd HnU r Hr E. rewrite <- (Hrw r E). apply in_map.
    apply kept_In. split; [assumption|]. intros Hdrop.
    apply dropped_iff in Hdrop. destruct Hdrop as [r0 [Hr0 [El Hi]]].
    assert (r0 = r) by now apply (NoDup_labels_eq (rows (df self))).
    subst r0. rewrite (Hrw r E) in Hi. unfold with_entity, entity in Hi.
    cbn [snd hd isin] in Hi. apply mem_true_iff in Hi.
    apply HnU. unfold U in Hi. now apply iterate_In in Hi.
Qed.

(** Rows read from several files share index labels, and a row that shares
    its label with a dropped row is dropped with it: here the row of
    ["e1"], which resolves, goes with the row of ["e2"]. *)
Example shared_label_dropped :
  let out := before_writing sample_constants directory_world
               (__init__ sample_constants "input" "output" "Country" [],
                no_effects) in
  fst out = Ok tt
  /\ rows (df (self_after
                 (loading directory_world
                    (__init__ sample_constants "input" "output" "Country" [],
                     no_effects))))
     = [(0, [Str "e2"; Str "20"]); (0, [Str "e1"; Str "10"])]
  /\ rows (df (self_after out)) = [].
Proof. vm_compute. repeat split. Qed.


End ResolveEntities.

Lemma unresolved_rows_dropped_witness :
  let w := sample_world scenario_csv scenario_mapping [] forward_order in
  let out := _resolve_entities sample_constants w
               (loaded scenario_csv, no_effects) in
  (forall r', In r' (rows (df (self_after out))) -> entity r' <> Str "e2")
  /\ (forall r r', In r (rows (df (loaded scenario_csv))) ->
                   entity r = Str "e2" ->
                   In r' (rows (df (self_after out))) -> fst r' <> fst r).
Proof.
  intros w out.
  apply (@unresolved_rows_dropped sample_constants w (loaded scenario_csv)
           (self_after out) no_effects (effects_after out)
           ["e1"; "e2"; "dcid:X"] scenario_mapping).
  - vm_compute. reflexivity.
  - reflexivity.
  - reflexivity.
  - simpl. tauto.
  - reflexivity.
  - reflexivity.
Defined.


Lemma resolved_rows_rewritten_witness :
  let w := sample_world scenario_csv scenario_mapping [] forward_order in
  let out := _resolve_entities sample_constants w
               (loaded scenario_csv, no_effects) in
  let self := loaded scenario_csv in
  let self' := self_after out in
  (exists dropped,
      Forall2
        (fun r r' => fst r' = fst r /\ tl (snd r') = tl (snd r)
                     /\ (entity r = Str "e1" -> entity r' = Str "E1"))
        (kept dropped (rows (df self))) (rows (df self')))
  /\ (NoDup (map fst (rows (df self))) ->
      ~ In "E1" (unresolved_names
                   (candidates sample_constants ["e1"; "e2"; "dcid:X"])
                   scenario_mapping) ->
      forall r, In r (rows (df self)) -> entity r = Str "e1" ->
                In (with_entity (Str "E1") r) (rows (df self'))).
Proof.
  intros w out self self'.
  apply (@resolved_rows_rewritten sample_constants w self self' no_effects
           (effects_after out) ["e1"; "e2"; "dcid:X"] scenario_mapping).
  - vm_compute. reflexivity.
  - reflexivity.
  - reflexivity.
  - reflexivity.
  - simpl. intros [[H | [H | [H | []]]] _]; discriminate.
Defined.


(** C1 as stated fails: the resolver maps ["e1"] to ["dcid:X"], an override
    reference of the column, and the row that held ["e1"] ends with ["X"]. *)
Lemma resolved_rows_rewritten_counterexample :
  let w := sample_world chained_csv chained_mapping [] forward_order in
  let out := _resolve_entities sample_constants w
               (loaded chained_csv, no_effects) in
  fst out = Ok tt
  /\ Dict.get "e1" chained_mapping = Some "dcid:X"
  /\ In (0, [Str "e1"; Str "10"]) (rows (df (loaded chained_csv)))
  /\ rows (df (self_after out))
     = [(0, [Str "X"; Str "10"]); (1, [Str "X"; Str "30"])]
  /\ ~ In (with_entity (Str "dcid:X") (0, [Str "e1"; Str "10"]))
          (rows (df (self_after out))).
Proof.
  vm_compute. repeat split; auto.
  intros [H | [H | []]]; discriminate.
Qed.

(** ** The audit table *)

Lemma combine_app (A B : Type) (l1 l2 : list A) (m1 m2 : list B) :
  List.length l1 = List.length m1 ->
  combine (l1 ++ l2) (m1 ++ m2) = combine l1 m1 ++ combine l2 m2.
Proof.
  revert m1. induction l1 as [|a t IH]; intros [|b m1] H;
    try discriminate; cbn; [reflexivity|].
  f_equal. apply IH. now injection H.
Qed.

Lemma combine_keys_values (d : dict string) :
  combine (Dict.keys d) (Dict.values d) = d.
Proof.
  unfold Dict.keys, Dict.values.
  induction d as [|[k v] t IH]; cbn; [reflexivity | now rewrite IH].
Qed.

Lemma combine_repeat (A B : Type) (l : list A) (b : B) :
  combine l (repeat b (List.length l)) = map (fun a => (a, b)) l.
Proof. induction l as [|a t IH]; cbn; [reflexivity | now rewrite IH]. Qed.

(** The rows of a frame built from three columns of one length. *)
Lemma transpose3 (A B C : list cell) :
  List.length B = List.length A -> List.length C = List.length A ->
  map (fun i => [nth i A NaN; nth i B NaN; nth i C NaN])
      (seq 0 (List.length A))
  = map (fun abc => [fst abc; fst (snd abc); snd (snd abc)])
        (combine A (combine B C)).
Proof.
  revert B C. induction A as [|a A IH]; intros [|b B] [|x C] HB HC;
    try discriminate; [reflexivity|].
  cbn [List.length seq map combine nth fst snd]. f_equal.
  rewrite <- seq_shift, map_map. cbn [nth].
  apply IH; [now injection HB | now injection HC].
Qed.

Lemma from_dict_rows_labels (d : dict (list cell)) :
  map fst (rows (from_dict d))
  = seq 0 (match d with [] => 0 | (_, col) :: _ => List.length col end).
Proof.
  unfold from_dict. cbn [rows]. rewrite map_map. cbn [fst]. apply map_id.
Qed.

Section AuditFrame.
Variable c : Constants.
Hypothesis Hdistinct :
  NoDup [DEBUG_COLUMN_NAME c; DEBUG_COLUMN_DCID c; DEBUG_COLUMN_LINK c].

Lemma debug_literal (A B C : list cell) :
  Dict.literal [(DEBUG_COLUMN_NAME c, A); (DEBUG_COLUMN_DCID c, B);
                (DEBUG_COLUMN_LINK c, C)]
  = [(DEBUG_COLUMN_NAME c, A); (DEBUG_COLUMN_DCID c, B);
     (DEBUG_COLUMN_LINK c, C)].
Proof.
  inversion Hdistinct as [|? ? H1 H2]; subst.
  inversion H2 as [|? ? H3 _]; subst. cbn [In] in H1, H3.
  unfold Dict.literal. cbn [fold_left fst snd Dict.set].
  assert (E1 : String.eqb (DEBUG_COLUMN_DCID c) (DEBUG_COLUMN_NAME c) = false).
  { apply String.eqb_neq. intros E. apply H1. left. now symmetry. }
  assert (E2 : String.eqb (DEBUG_COLUMN_LINK c) (DEBUG_COLUMN_NAME c) = false).
  { apply String.eqb_neq. intros E. apply H1. right. left. now symmetry. }
  assert (E3 : String.eqb (DEBUG_COLUMN_LINK c) (DEBUG_COLUMN_DCID c) = false).
  { apply String.eqb_neq. intros E. apply H3. left. now symmetry. }
  rewrite E1. cbn [Dict.set]. rewrite E2, E3. reflexivity.
Qed.

Lemma combine_columns (N D : list string) :
  combine (map Str N)
    (combine (map Str D) (map Str (map (browser_link c) D)))
  = map (fun nd => (Str (fst nd),
                    (Str (snd nd), Str (browser_link c (snd nd)))))
        (combine N D).
Proof.
  revert D. induction N as [|n N IH]; intros [|d D]; cbn; try reflexivity.
  now rewrite IH.
Qed.

Lemma audit_frame_records (resolved pre : dict string) (U : list string) :
  columns (audit_frame c resolved pre U)
  = [DEBUG_COLUMN_NAME c; DEBUG_COLUMN_DCID c; DEBUG_COLUMN_LINK c]
  /\ map snd (rows (audit_frame c resolved pre U))
     = map (fun n => audit_record c n (DEBUG_UNRESOLVED_DCID c)) U
       ++ map (fun kv => audit_record c (fst kv) (snd kv)) pre
       ++ map (fun kv => audit_record c (fst kv) (snd kv)) resolved.
Proof.
  unfold audit_frame, debug_resolve_columns. rewrite debug_literal.
  split; [reflexivity|].
  unfold from_dict. cbn [rows Dict.values map snd]. rewrite map_map.
  cbn [snd].
  set (N := U ++ Dict.keys pre ++ Dict.keys resolved).
  set (D := repeat (DEBUG_UNRESOLVED_DCID c) (List.length U)
            ++ Dict.values pre ++ Dict.values resolved).
  assert (HL : List.length D = List.length N).
  { unfold D, N, Dict.keys, Dict.values.
    now rewrite !length_app, repeat_length, !length_map. }
  rewrite (transpose3 (map Str N) (map Str D)
             (map Str (map (browser_link c) D)))
    by (rewrite !length_map; congruence).
  rewrite combine_columns, map_map. cbn [fst snd].
  unfold N, D. rewrite combine_app by now rewrite repeat_length.
  rewrite combine_app
    by (unfold Dict.keys, Dict.values; now rewrite !length_map).
  rewrite combine_repeat, !combine_keys_values, !map_app, map_map.
  reflexivity.
Qed.

End AuditFrame.

Lemma browser_link_marker (c : Constants) :
  browser_link c (DEBUG_UNRESOLVED_DCID c) = "".
Proof. unfold browser_link. now rewrite String.eqb_refl. Qed.

Lemma browser_link_other (c : Constants) (d : string) :
  d <> DEBUG_UNRESOLVED_DCID c ->
  browser_link c d = String.append (DC_BROWSER c) (String.append "/" d).
Proof.
  intros H. unfold browser_link. apply String.eqb_neq in H. now rewrite H.
Qed.

(** C4, amended. The audit table lists the unresolved names, each once,
    then the override references of the column, each once, then the names
    of the resolver's mapping; its row count is the sum of the three
    counts.  An unresolved row carries the marker and an empty link; any
    other row carries its identifier and, when the identifier is not the
    marker, the browser address, ["/"] and the identifier as its link. *)
Theorem audit_table (c : Constants) (w : World)
  (self self' : SimpleStatsImporter) (fx fx' : Effects)
  (names : list string) (dcids : dict string) :
  _resolve_entities c w (self, fx) = (Ok tt, (self', fx')) ->
  map entity (rows (df self)) = map Str names ->
  resolve_entities w (candidates c names) (entity_type self) = Ok dcids ->
  NoDup [DEBUG_COLUMN_NAME c; DEBUG_COLUMN_DCID c; DEBUG_COLUMN_LINK c] ->
  Dict.distinct_keys dcids = true ->
  let U := iterate (set_iteration w)
                   (unresolved_names (candidates c names) dcids) in
  let P := Dict.keys (overrides c names []) in
  exists audit,
    debug_resolve_df self' = Some audit
    /\ columns audit
       = [DEBUG_COLUMN_NAME c; DEBUG_COLUMN_DCID c; DEBUG_COLUMN_LINK c]
    /\ map snd (rows audit)
       = map (fun n => [Str n; Str (DEBUG_UNRESOLVED_DCID c); Str ""]) U
         ++ map (fun e => audit_record c e (override_dcid c e)) P
         ++ map (fun kv => audit_record c (fst kv) (snd kv)) dcids
    /\ List.length (rows audit)
       = distinct (unresolved_names (candidates c names) dcids)
         + distinct (filter (is_override c) names)
         + distinct (Dict.keys dcids)
    /\ (NoDup U
        /\ forall x, In x U
                     <-> In x (candidates c names) /\ Dict.get x dcids = None)
    /\ (NoDup P
        /\ forall x, In x P <-> In x names /\ is_override c x = true)
    /\ (forall n d, d <> DEBUG_UNRESOLVED_DCID c ->
                    audit_record c n d
                    = [Str n; Str d;
                       Str (String.append (DC_BROWSER c)
                                          (String.append "/" d))]).
Proof.
  intros Hrun Hnames Hres Hcols Hkeys U P.
  destruct (@resolve_entities_shape _ _ _ _ _ _ _ _ Hrun Hnames Hres)
    as [-> _].
  cbn [debug_resolve_df with_debug_resolve_df].
  exists (audit_frame c dcids (overrides c names []) U).
  split; [reflexivity|].
  destruct (audit_frame_records c Hcols dcids (overrides c names []) U)
    as [Ec Er].
  assert (HP : NoDup P /\ forall x, In x P
                                    <-> In x names /\ is_override c x = true).
  { split.
    - apply overrides_NoDup. constructor.
    - intros x. unfold P. rewrite overrides_keys_In. cbn [Dict.keys map In].
      tauto. }
  assert (Hrec :
    map snd (rows (audit_frame c dcids (overrides c names []) U))
    = map (fun n => [Str n; Str (DEBUG_UNRESOLVED_DCID c); Str ""]) U
      ++ map (fun e => audit_record c e (override_dcid c e)) P
      ++ map (fun kv => audit_record c (fst kv) (snd kv)) dcids).
  { rewrite Er. f_equal.
    - apply map_ext. intros n. unfold audit_record.
      now rewrite browser_link_marker.
    - f_equal. unfold P, Dict.keys. rewrite map_map.
      apply map_ext_in. intros kv Hkv.
      rewrite (overrides_values c names [] (fun kv' (H : In kv' []) =>
                 match H with end) kv Hkv).
      reflexivity. }
  split; [exact Ec|]. split; [exact Hrec|]. split; [|split; [|split]].
  - rewrite <- (length_map (@snd nat (list cell))
                  (rows (audit_frame c dcids (overrides c names []) U))
                : _ = @List.length row _).
    rewrite Hrec, !length_app, !length_map, Nat.add_assoc.
    f_equal; [f_equal|].
    + apply iterate_length.
    + apply nodup_length_of_set; [apply HP|].
      intros x. rewrite filter_In. apply HP.
    + rewrite <- (length_map fst dcids). fold (Dict.keys dcids).
      apply nodup_length_of_set; [|tauto].
      now apply distinct_keys_NoDup.
  - split; [apply iterate_NoDup|]. intros x. unfold U.
    now rewrite iterate_In, unresolved_names_In.
  - exact HP.
  - intros n d Hd. unfold audit_record. now rewrite browser_link_other.
Qed.

Lemma audit_table_witness :
  let c := sample_constants in
  let w := sample_world scenario_csv scenario_mapping [] forward_order in
  let out := _resolve_entities c w (loaded scenario_csv, no_effects) in
  let names := ["e1"; "e2"; "dcid:X"] in
  let dcids := scenario_mapping in
  let U := iterate (set_iteration w)
                   (unresolved_names (candidates c names) dcids) in
  let P := Dict.keys (overrides c names []) in
  exists audit,
    debug_resolve_df (self_after out) = Some audit
    /\ columns audit
       = [DEBUG_COLUMN_NAME c; DEBUG_COLUMN_DCID c; DEBUG_COLUMN_LINK c]
    /\ map snd (rows audit)
       = map (fun n => [Str n; Str (DEBUG_UNRESOLVED_DCID c); Str ""]) U
         ++ map (fun e => audit_record c e (override_dcid c e)) P
         ++ map (fun kv => audit_record c (fst kv) (snd kv)) dcids
    /\ List.length (rows audit)
       = distinct (unresolved_names (candidates c names) dcids)
         + distinct (filter (is_override c) names)
         + distinct (Dict.keys dcids)
    /\ (NoDup U
        /\ forall x, In x U
                     <-> In x (candidates c names) /\ Dict.get x dcids = None)
    /\ (NoDup P
        /\ forall x, In x P <-> In x names /\ is_override c x = true)
    /\ (forall n d, d <> DEBUG_UNRESOLVED_DCID c ->
                    audit_record c n d
                    = [Str n; Str d;
                       Str (String.append (DC_BROWSER c)
                                          (String.append "/" d))]).
Proof.
  intros c w out names dcids.
  apply (@audit_table c w (loaded scenario_csv) (self_after out) no_effects
           (effects_after out) names dcids).
  - vm_compute. reflexivity.
  - reflexivity.
  - reflexivity.
  - repeat constructor; simpl; intuition discriminate.
  - reflexivity.
Defined.

(** C4 as stated fails: no name is unresolved, the only audit row is that
    of an override reference to the marker, and its link is empty. *)
Lemma audit_table_counterexample :
  let c := sample_constants in
  let w := sample_world marker_csv [] [] forward_order in
  let out := _resolve_entities c w (loaded marker_csv, no_effects) in
  fst out = Ok tt
  /\ unresolved_names (candidates c ["dcid:UNRESOLVED"]) [] = []
  /\ option_map (fun audit => map snd (rows audit))
                (debug_resolve_df (self_after out))
     = Some [[Str "dcid:UNRESOLVED"; Str "UNRESOLVED"; Str ""]]
  /\ "" <> String.append (DC_BROWSER c) (String.append "/" "UNRESOLVED").
Proof.
  vm_compute. repeat split; discriminate.
Qed.

(** ** Reshaping *)




Lemma filter_all_true (A : Type) (f : A -> bool) (l : list A) :
  (forall x, In x l -> f x = true) -> filter f l = l.
Proof.
  intros H. apply forallb_filter_id. now apply forallb_forall.
Qed.






Section Reshape.
Variable c : Constants.
Variables (self : SimpleStatsImporter) (fx : Effects) (vars : list string).

Hypothesis Hcolumns :
  columns (df self) = COLUMN_DCID c :: COLUMN_DATE c :: vars.
Hypothesis Hwide : NoDup (columns (df self)).
Hypothesis Hvalue : ~ In (COLUMN_VALUE c) (columns (df self)).
Hypothesis Hlong :
  NoDup [COLUMN_DCID c; COLUMN_VARIABLE c; COLUMN_DATE c; COLUMN_VALUE c].


End Reshape.



(** ** The pipeline *)

Lemma bind_assoc (A B C : Type) (m : M A) (k : A -> M B) (k' : B -> M C)
  (s : state) :
  bind (bind m k) k' s = bind m (fun a => bind (k a) k') s.
Proof.
  unfold bind. destruct (m s) as [[a | e] s1]; [|reflexivity].
  destruct (k a s1) as [[b | e] s2]; reflexivity.
Qed.

Lemma bind_Ok (A B : Type) (m : M A) (k : A -> M B) (s s1 : state) (a : A) :
  m s = (Ok a, s1) -> bind m k s = k a s1.
Proof. intros H. unfold bind. now rewrite H. Qed.

Lemma bind_Raise (A B : Type) (m : M A) (k : A -> M B) (s s1 : state)
  (e : exception) :
  m s = (Raise e, s1) -> bind m k s = (Raise e, s1).
Proof. intros H. unfold bind. now rewrite H. Qed.

Lemma bind_ext (A B : Type) (m : M A) (k k' : A -> M B) (s : state) :
  (forall a s1, k a s1 = k' a s1) -> bind m k s = bind m k' s.
Proof.
  intros H. unfold bind. destruct (m s) as [[a | e] s1]; [apply H | reflexivity].
Qed.

Lemma do_import_split (c : Constants) (w : World) (s : state) :
  do_import c w s = bind (before_writing c w) (fun _ => _write_csvs w) s.
Proof.
  unfold do_import, before_writing.
  rewrite !bind_assoc. apply bind_ext. intros _ s1.
  rewrite !bind_assoc. apply bind_ext. intros _ s2.
  rewrite !bind_assoc. apply bind_ext. intros _ s3.
  rewrite !bind_assoc. apply bind_ext. intros _ s4.
  rewrite !bind_assoc. reflexivity.
Qed.

Lemma do_import_loading (c : Constants) (w : World) (s : state) :
  do_import c w s
  = bind (loading w) (fun _ =>
    bind _drop_ignored_columns (fun _ =>
    bind (_rename_columns c) (fun _ =>
    bind (_resolve_entities c w) (fun _ =>
    bind (if UNPIVOT_VARIABLES c
          then bind (_unpivot_variables c) (fun _ => _reorder_columns c)
          else ret tt) (fun _ => _write_csvs w))))) s.
Proof. unfold do_import, loading. now rewrite bind_assoc. Qed.

(** Computations that leave a relation between the states before and
    after, whatever they return. *)
Section Preserves.
Variable R : state -> state -> Prop.
Hypothesis R_refl : forall s, R s s.
Hypothesis R_trans : forall s1 s2 s3, R s1 s2 -> R s2 s3 -> R s1 s3.

Lemma preserves_ret (A : Type) (a : A) : preserves R (ret a).
Proof. intros s. apply R_refl. Qed.

Lemma preserves_lift (A : Type) (r : result A) : preserves R (lift r).
Proof. intros s. apply R_refl. Qed.

Lemma preserves_get_self : preserves R get_self.
Proof. intros s. apply R_refl. Qed.

Lemma preserves_bind (A B : Type) (m : M A) (k : A -> M B) :
  preserves R m -> (forall a, preserves R (k a)) -> preserves R (bind m k).
Proof.
  intros Hm Hk s. unfold bind. specialize (Hm s).
  destruct (m s) as [[a | e] s1]; cbn [snd] in *; [|assumption].
  apply R_trans with (s2 := s1); [assumption | apply Hk].
Qed.

End Preserves.

Lemma same_outputs_refl (s : state) : same_outputs s s.
Proof. now repeat split. Qed.

Lemma same_outputs_trans (s1 s2 s3 : state) :
  same_outputs s1 s2 -> same_outputs s2 s3 -> same_outputs s1 s3.
Proof. unfold same_outputs. intuition congruence. Qed.

Lemma same_audit_refl (s : state) : same_audit s s.
Proof. now repeat split. Qed.

Lemma same_audit_trans (s1 s2 s3 : state) :
  same_audit s1 s2 -> same_audit s2 s3 -> same_audit s1 s3.
Proof. unfold same_audit, same_outputs. intuition congruence. Qed.

Ltac preserves_step refl trans :=
  first
    [ apply (preserves_bind trans); [|intros ?]
    | apply (preserves_ret _ refl)
    | apply (preserves_lift _ refl)
    | apply (preserves_get_self _ refl)
    | match goal with
      | |- preserves _ (match ?x with _ => _ end) => destruct x
      | |- preserves _ (if ?x then _ else _) => destruct x
      end
    | (intros s; now repeat split) ].

Ltac preserves_outputs :=
  repeat preserves_step same_outputs_refl same_outputs_trans.

Ltac preserves_audit :=
  repeat preserves_step same_audit_refl same_audit_trans.

Lemma set_df_same_audit (d : DataFrame) : preserves same_audit (set_df d).
Proof. intros s. now repeat split. Qed.

Lemma same_audit_outputs (A : Type) (m : M A) :
  preserves same_audit m -> preserves same_outputs m.
Proof. intros H s. apply H. Qed.

Lemma set_debug_resolve_df_same_outputs (d : DataFrame) :
  preserves same_outputs (set_debug_resolve_df d).
Proof. intros s. now repeat split. Qed.

Lemma makedirs_same_outputs (w : World) (path : string) :
  preserves same_outputs (makedirs w path).
Proof.
  intros s. unfold makedirs. destruct (can_makedirs w path); now repeat split.
Qed.

Lemma dc_resolve_entities_same_outputs (w : World) (l : list string)
  (t : string) :
  preserves same_outputs (dc_resolve_entities w l t).
Proof. intros s. now repeat split. Qed.

Lemma init_same_outputs (w : World) : preserves same_outputs (_init w).
Proof.
  unfold _init. preserves_outputs. apply makedirs_same_outputs.
Qed.

Lemma read_csvs_same_outputs (w : World) :
  preserves same_outputs (_read_csvs w).
Proof.
  unfold _read_csvs. preserves_outputs.
Qed.

Lemma drop_ignored_columns_same_outputs :
  preserves same_outputs _drop_ignored_columns.
Proof.
  unfold _drop_ignored_columns. preserves_outputs.
Qed.

Lemma rename_columns_same_outputs (c : Constants) :
  preserves same_outputs (_rename_columns c).
Proof.
  unfold _rename_columns, rename_column. preserves_outputs.
Qed.

Lemma resolve_entities_same_outputs (c : Constants) (w : World) :
  preserves same_outputs (_resolve_entities c w).
Proof.
  unfold _resolve_entities, _create_debug_resolve_dataframe.
  preserves_outputs.
  all: try (destruct (debug_resolve_columns _ _ _ _) as [[? ?] ?];
            apply set_debug_resolve_df_same_outputs).
Qed.

Lemma reshape_same_audit (c : Constants) :
  preserves same_audit
    (if UNPIVOT_VARIABLES c
     then bind (_unpivot_variables c) (fun _ => _reorder_columns c)
     else ret tt).
Proof.
  unfold _unpivot_variables, _reorder_columns. preserves_audit.
Qed.

Lemma before_writing_same_outputs (c : Constants) (w : World) :
  preserves same_outputs (before_writing c w).
Proof.
  unfold before_writing.
  apply (preserves_bind same_outputs_trans); [apply init_same_outputs|].
  intros _.
  apply (preserves_bind same_outputs_trans); [apply read_csvs_same_outputs|].
  intros _.
  apply (preserves_bind same_outputs_trans);
    [apply drop_ignored_columns_same_outputs|].
  intros _.
  apply (preserves_bind same_outputs_trans);
    [apply rename_columns_same_outputs|].
  intros _.
  apply (preserves_bind same_outputs_trans);
    [apply resolve_entities_same_outputs|].
  intros _. apply same_audit_outputs, reshape_same_audit.
Qed.

Lemma bind_Ok_inv (A B : Type) (m : M A) (k : A -> M B) (s s' : state)
  (b : B) :
  bind m k s = (Ok b, s') ->
  exists a s1, m s = (Ok a, s1) /\ k a s1 = (Ok b, s').
Proof.
  unfold bind. destruct (m s) as [[a | e] s1]; [|discriminate].
  intros H. now exists a, s1.
Qed.

Lemma resolve_entities_sets_audit (c : Constants) (w : World) (s s' : state) :
  _resolve_entities c w s = (Ok tt, s') ->
  exists audit, debug_resolve_df (fst s') = Some audit.
Proof.
  destruct s as [self fx], s' as [self' fx']. intros Hrun.
  destruct (resolve_entities_Ok_inv _ _ _ _ Hrun) as [names [dcids [_ [Hn Hr]]]].
  destruct (@resolve_entities_shape _ _ _ _ _ _ _ _ Hrun Hn Hr) as [-> _].
  eexists. reflexivity.
Qed.

Lemma before_writing_sets_audit (c : Constants) (w : World) (s s' : state) :
  before_writing c w s = (Ok tt, s') ->
  exists audit, debug_resolve_df (fst s') = Some audit.
Proof.
  unfold before_writing. intros H.
  apply bind_Ok_inv in H. destruct H as [_ [s1 [_ H]]].
  apply bind_Ok_inv in H. destruct H as [_ [s2 [_ H]]].
  apply bind_Ok_inv in H. destruct H as [_ [s3 [_ H]]].
  apply bind_Ok_inv in H. destruct H as [_ [s4 [_ H]]].
  apply bind_Ok_inv in H. destruct H as [[] [s5 [Hres H]]].
  apply resolve_entities_sets_audit in Hres. destruct Hres as [audit Ha].
  exists audit. rewrite <- Ha.
  pose proof (reshape_same_audit c s5) as [_ E]. rewrite H in E. exact E.
Qed.

(** C8, amended. A run of [do_import] ends in one of three ways: it
    returns, having written the observations file and then the audit file;
    or it raises with no file written; or it raises [OSError] on the audit
    file, which cannot be written, with the observations file written. *)
Theorem do_import_outputs (c : Constants) (w : World) (s : state) :
  let out := do_import c w s in
  let self := fst s in
  (exists table audit,
      fst out = Ok tt
      /\ df (self_after out) = table
      /\ debug_resolve_df (self_after out) = Some audit
      /\ files (effects_after out)
         = files (snd s)
           ++ [(observations_file self, to_csv table);
               (debug_resolve_file self, to_csv audit)])
  \/ (exists e,
         fst out = Raise e /\ files (effects_after out) = files (snd s))
  \/ (exists table,
         fst out = Raise OSError
         /\ can_write w (debug_resolve_file self) = false
         /\ files (effects_after out)
            = files (snd s) ++ [(observations_file self, to_csv table)]).
Proof.
  cbv zeta. rewrite do_import_split.
  pose proof (before_writing_same_outputs c w s) as Hsame.
  destruct (before_writing c w s) as [[[] | e] [self1 fx1]] eqn:Eb.
  - destruct (before_writing_sets_audit _ _ _ Eb) as [audit Ha].
    destruct Hsame as [Hf [Ho Hd]]. cbn [fst snd] in Hf, Ho, Hd, Ha.
    erewrite bind_Ok by exact Eb.
    unfold _write_csvs, bind, get_self, write_csv, self_after, effects_after.
    cbn [fst snd]. rewrite Ha, Ho, Hd.
    destruct (can_write w (observations_file (fst s))) eqn:Ew1; cbn [fst snd].
    + destruct (can_write w (debug_resolve_file (fst s))) eqn:Ew2;
        cbn [fst snd files].
      * left. exists (df self1), audit. rewrite Hf, <- app_assoc.
        repeat split. exact Ha.
      * right. right. exists (df self1). rewrite Hf. now repeat split.
    + right. left. exists OSError. now split.
  - erewrite bind_Raise by exact Eb. right. left. exists e. split; [reflexivity|].
    apply Hsame.
Qed.

(** C8 as stated fails: the audit file cannot be written, the run raises,
    and the observations file has been written. *)
Lemma do_import_outputs_counterexample :
  let w := sample_world scenario_csv scenario_mapping
             ["output/debug_resolve.csv"] forward_order in
  let out := do_import sample_constants w (sample_importer, no_effects) in
  fst out = Raise OSError
  /\ files (effects_after out)
     = [("output/observations.csv",
         {| header := ["dcid"; "val"];
            records := [[Str "E1"; Str "10"]; [Str "X"; Str "30"]] |})].
Proof. vm_compute. split; reflexivity. Qed.

(** ** Dropping the ignored columns *)

Lemma cell_at_nil (cols : list string) (x : string) : cell_at cols x [] = NaN.
Proof.
  unfold cell_at. destruct (position x cols) as [n|]; [|reflexivity].
  now destruct n.
Qed.

Lemma cell_at_cons (y : string) (cols : list string) (x : string) (v : cell)
  (cells : list cell) :
  cell_at (y :: cols) x (v :: cells)
  = if String.eqb x y then v else cell_at cols x cells.
Proof.
  unfold cell_at. cbn [position]. destruct (String.eqb x y); [reflexivity|].
  now destruct (position x cols).
Qed.

Lemma select_cells_cell_at (keep : string -> bool) (x : string) :
  keep x = true ->
  forall cols cells,
    cell_at (filter keep cols) x (select_cells keep cols cells)
    = cell_at cols x cells.
Proof.
  intros Hx. induction cols as [|y t IH]; intros cells; [reflexivity|].
  destruct cells as [|v vs].
  - cbn [select_cells]. now rewrite !cell_at_nil.
  - cbn [filter select_cells]. rewrite cell_at_cons.
    destruct (keep y) eqn:Ey.
    + rewrite cell_at_cons. destruct (String.eqb x y); [reflexivity | apply IH].
    + destruct (String.eqb_spec x y) as [-> | _]; [congruence | apply IH].
Qed.

Lemma drop_columns_Ok (labels : list string) (d : DataFrame) :
  (forall x, In x labels -> In x (columns d)) ->
  let keep := fun x => negb (Str.mem x labels) in
  drop_columns labels d
  = Ok {| columns := filter keep (columns d);
          rows := map (fun r => (fst r, select_cells keep (columns d) (snd r)))
                      (rows d) |}.
Proof.
  intros H keep. unfold drop_columns.
  assert (E : forallb (fun l => Str.mem l (columns d)) labels = true).
  { apply forallb_forall. intros x Hx. now apply mem_true_iff, H. }
  now rewrite E.
Qed.

Lemma drop_columns_KeyError (labels : list string) (d : DataFrame) :
  (exists x, In x labels /\ ~ In x (columns d)) ->
  drop_columns labels d = Raise KeyError.
Proof.
  intros [x [Hx Hn]]. unfold drop_columns.
  destruct (forallb (fun l => Str.mem l (columns d)) labels) eqn:E;
    [|reflexivity].
  exfalso. apply Hn. apply mem_true_iff.
  exact (proj1 (forallb_forall _ _) E x Hx).
Qed.

(** C7. When an ignored column is not a column of the table,
    [_drop_ignored_columns] raises [KeyError] and leaves the importer as it
    was, and the run of [do_import] that loaded this table raises with no
    file written.  When every ignored column is a column, the columns left
    are those that are not ignored, in their order, and every row keeps its
    label and its cell under each of them. *)
Theorem drop_ignored_columns_spec (c : Constants) (w : World)
  (self : SimpleStatsImporter) (fx : Effects) :
  ((exists x, In x (ignore_columns self) /\ ~ In x (columns (df self))) ->
   _drop_ignored_columns (self, fx) = (Raise KeyError, (self, fx))
   /\ forall s0, loading w s0 = (Ok tt, (self, fx)) ->
                 do_import c w s0 = (Raise KeyError, (self, fx))
                 /\ files fx = files (snd s0))
  /\ ((forall x, In x (ignore_columns self) -> In x (columns (df self))) ->
      exists self',
        _drop_ignored_columns (self, fx) = (Ok tt, (self', fx))
        /\ columns (df self')
           = filter (fun x => negb (Str.mem x (ignore_columns self)))
                    (columns (df self))
        /\ Forall2
             (fun r r' =>
                fst r' = fst r
                /\ forall x, ~ In x (ignore_columns self) ->
                             cell_at (columns (df self')) x (snd r')
                             = cell_at (columns (df self)) x (snd r))
             (rows (df self)) (rows (df self'))).
Proof.
  split.
  - intros Hmiss.
    assert (E : _drop_ignored_columns (self, fx)
                = (Raise KeyError, (self, fx))).
    { unfold _drop_ignored_columns, bind. msimpl.
      destruct (ignore_columns self) as [|i l] eqn:Ei.
      - destruct Hmiss as [x [[] _]].
      - unfold lift. now rewrite (drop_columns_KeyError _ _ Hmiss). }
    split; [exact E|]. intros s0 Hload. split.
    + rewrite do_import_loading. erewrite bind_Ok by exact Hload.
      erewrite bind_Raise by exact E. reflexivity.
    + assert (Hp : preserves same_outputs (loading w)).
      { unfold loading. apply (preserves_bind same_outputs_trans).
        - apply init_same_outputs.
        - intros _. apply read_csvs_same_outputs. }
      specialize (Hp s0). rewrite Hload in Hp. apply Hp.
  - intros Hall. unfold _drop_ignored_columns, bind. msimpl.
    destruct (ignore_columns self) as [|i l] eqn:Ei.
    + exists self. split; [reflexivity|]. split.
      * symmetry. now apply filter_all_true.
      * clear. induction (rows (df self)) as [|r t IH]; constructor;
          [now split | exact IH].
    + unfold lift. rewrite (drop_columns_Ok _ _ Hall). msimpl.
      eexists. split; [reflexivity|]. cbn [df with_df columns rows].
      split; [reflexivity|].
      apply Forall2_map_same. intros r _. cbn [fst snd]. split; [reflexivity|].
      intros x Hx. apply select_cells_cell_at.
      apply negb_true_iff. now apply mem_false_iff.
Qed.

Lemma drop_ignored_columns_spec_witness :
  let c := sample_constants in
  let w := sample_world scenario_csv scenario_mapping [] forward_order in
  let s0 := (__init__ c "input.csv" "output" "Country" ["missing"],
             no_effects) in
  let s1 := snd (loading w s0) in
  let self := with_df (read_csv scenario_csv)
                (__init__ c "input.csv" "output" "Country" ["val"]) in
  (do_import c w s0 = (Raise KeyError, s1) /\ files (snd s1) = files (snd s0))
  /\ (exists self',
         _drop_ignored_columns (self, no_effects) = (Ok tt, (self', no_effects))
         /\ columns (df self') = ["name"]).
Proof.
  intros c w s0 s1 self. split.
  - destruct (drop_ignored_columns_spec c w (fst s1) (snd s1)) as [HA _].
    destruct HA as [_ HA].
    + exists "missing". split; [now left|]. simpl. intuition discriminate.
    + apply (HA s0). vm_compute. reflexivity.
  - destruct (drop_ignored_columns_spec c w self no_effects) as [_ HB].
    destruct HB as [self' [H1 [H2 _]]].
    + simpl. intros x [<- | []]. right. now left.
    + exists self'. split; [exact H1 | exact H2].
Defined.

(** ** The scenario of the spec *)

Lemma iterate_singleton (o : SetIteration) (x : string) : iterate o [x] = [x].
Proof.
  pose proof (iterate_NoDup o [x]) as Hnd.
  pose proof (iterate_In o [x]) as Hin.
  destruct (iterate o [x]) as [|y t].
  - exfalso. apply (Hin x). now left.
  - assert (Ey : y = x).
    { destruct (proj1 (Hin y) (or_introl eq_refl)) as [E | []]. now symmetry. }
    subst y. destruct t as [|z t]; [reflexivity|]. exfalso.
    assert (Ez : z = x).
    { destruct (proj1 (Hin z) (or_intror (or_introl eq_refl))) as [E | []].
      now symmetry. }
    subst z. inversion Hnd as [|? ? Hx _]. apply Hx. now left.
Qed.

Section Scenario.
Variables (c : Constants) (w : World) (input output etype : string).

Hypothesis Hflat : UNPIVOT_VARIABLES c = false.
Hypothesis Hprefix : DCID_OVERRIDE_PREFIX c = "dcid:".
Hypothesis HmarkerX : DEBUG_UNRESOLVED_DCID c <> "X".
Hypothesis HmarkerE1 : DEBUG_UNRESOLVED_DCID c <> "E1".
Hypothesis Hdebug :
  NoDup [DEBUG_COLUMN_NAME c; DEBUG_COLUMN_DCID c; DEBUG_COLUMN_LINK c].
Hypothesis Hmakedirs : can_makedirs w output = true.
Hypothesis Hfile : isdir w input = false.
Hypothesis Hcontent : file_content w input = Ok scenario_csv.
Hypothesis Hresolver :
  resolve_entities w ["e1"; "e2"] etype = Ok [("e1", "E1")].
Hypothesis Hobservations :
  can_write w (Str.os_path_join output (OBSERVATIONS_FILE_NAME c)) = true.
Hypothesis Hdebug_resolve :
  can_write w (Str.os_path_join output (DEBUG_RESOLVE_FILE_NAME c)) = true.

Let names := ["e1"; "e2"; "dcid:X"].

Lemma scenario_candidates : candidates c names = ["e1"; "e2"].
Proof. unfold candidates, is_override. rewrite Hprefix. reflexivity. Qed.

Lemma scenario_overrides : overrides c names [] = [("dcid:X", "X")].
Proof.
  unfold overrides, is_override, override_dcid. rewrite Hprefix. reflexivity.
Qed.

(** C5. On the table of the scenario, without reshaping, with a resolver
    that answers [{"e1": "E1"}] to the candidates [["e1"; "e2"]], the run
    returns; the observations file holds the rows [E1,10] and [X,30]; the
    audit file holds the rows of e2 (marker, no link), dcid:X and e1, in
    this order. *)
Theorem scenario_outputs :
  let self := __init__ c input output etype [] in
  let out := do_import c w (self, no_effects) in
  fst out = Ok tt
  /\ resolver_calls (effects_after out) = [(["e1"; "e2"], etype)]
  /\ files (effects_after out)
     = [(observations_file self,
         {| header := [COLUMN_DCID c; "val"];
            records := [[Str "E1"; Str "10"]; [Str "X"; Str "30"]] |});
        (debug_resolve_file self,
         {| header := [DEBUG_COLUMN_NAME c; DEBUG_COLUMN_DCID c;
                       DEBUG_COLUMN_LINK c];
            records :=
              [[Str "e2"; Str (DEBUG_UNRESOLVED_DCID c); Str ""];
               [Str "dcid:X"; Str "X";
                Str (String.append (DC_BROWSER c) "/X")];
               [Str "e1"; Str "E1";
                Str (String.append (DC_BROWSER c) "/E1")]] |})].
Proof.
  intros self out. unfold out, do_import.
  set (fx1 := {| directories := [output]; files := [];
                 resolver_calls := [] |}).
  assert (E1 : _init w (self, no_effects) = (Ok tt, (self, fx1))).
  { unfold _init, bind, get_self, makedirs. cbn [fst snd self __init__ output_dir].
    now rewrite Hmakedirs. }
  erewrite bind_Ok by exact E1.
  set (self2 := with_df (read_csv scenario_csv) self).
  assert (E2 : _read_csvs w (self, fx1) = (Ok tt, (self2, fx1))).
  { unfold _read_csvs, bind, get_self, lift.
    cbn [fst snd self __init__ input_path]. rewrite Hfile, Hcontent.
    reflexivity. }
  erewrite bind_Ok by exact E2.
  assert (E3 : _drop_ignored_columns (self2, fx1) = (Ok tt, (self2, fx1)))
    by reflexivity.
  erewrite bind_Ok by exact E3.
  set (d4 := {| columns := [COLUMN_DCID c; "val"];
                rows := rows (read_csv scenario_csv) |}).
  set (self4 := with_df d4 self2).
  assert (E4 : _rename_columns c (self2, fx1) = (Ok tt, (self4, fx1))).
  { unfold _rename_columns, rename_column, bind, get_self, lift.
    rewrite Hflat. reflexivity. }
  erewrite bind_Ok by exact E4.
  assert (Hn : map entity (rows (df self4)) = map Str names) by reflexivity.
  assert (Hr : resolve_entities w (candidates c names) (entity_type self4)
               = Ok [("e1", "E1")]).
  { rewrite scenario_candidates. exact Hresolver. }
  assert (Hc : columns (df self4) <> []) by discriminate.
  pose proof (resolve_entities_run c w self4 fx1 names Hc Hn Hr) as E5.
  cbv zeta in E5. rewrite scenario_candidates, scenario_overrides in E5.
  change (unresolved_names ["e1"; "e2"] [("e1", "E1")]) with ["e2"] in E5.
  rewrite iterate_singleton in E5.
  erewrite bind_Ok by exact E5. rewrite Hflat.
  destruct (audit_frame_records c Hdebug [("e1", "E1")] [("dcid:X", "X")]
              ["e2"]) as [Ha1 Ha2].
  unfold _write_csvs, bind, get_self, write_csv, ret.
  cbn [fst snd with_debug_resolve_df with_df observations_file
       debug_resolve_file debug_resolve_df df self2 self4 self __init__].
  rewrite Hobservations. cbn [fst snd files].
  rewrite Hdebug_resolve. cbn [fst snd files effects_after resolver_calls
                               after_call fx1 app].
  repeat split. unfold to_csv. rewrite Ha1, Ha2.
  cbn [map app fst snd]. unfold audit_record.
  rewrite browser_link_marker.
  rewrite !browser_link_other by (intros E; symmetry in E; contradiction).
  reflexivity.
Qed.

End Scenario.

Lemma scenario_outputs_witness :
  let c := sample_constants in
  let w := sample_world scenario_csv scenario_mapping [] forward_order in
  let self := __init__ c "input.csv" "output" "Country" [] in
  let out := do_import c w (self, no_effects) in
  fst out = Ok tt
  /\ resolver_calls (effects_after out) = [(["e1"; "e2"], "Country")]
  /\ files (effects_after out)
     = [(observations_file self,
         {| header := [COLUMN_DCID c; "val"];
            records := [[Str "E1"; Str "10"]; [Str "X"; Str "30"]] |});
        (debug_resolve_file self,
         {| header := [DEBUG_COLUMN_NAME c; DEBUG_COLUMN_DCID c;
                       DEBUG_COLUMN_LINK c];
            records :=
              [[Str "e2"; Str (DEBUG_UNRESOLVED_DCID c); Str ""];
               [Str "dcid:X"; Str "X";
                Str (String.append (DC_BROWSER c) "/X")];
               [Str "e1"; Str "E1";
                Str (String.append (DC_BROWSER c) "/E1")]] |})].
Proof.
  intros c w.
  apply (@scenario_outputs c w "input.csv" "output" "Country").
  - reflexivity.
  - reflexivity.
  - discriminate.
  - discriminate.
  - repeat constructor; simpl; intuition discriminate.
  - reflexivity.
  - reflexivity.
  - reflexivity.
  - reflexivity.
  - reflexivity.
  - reflexivity.
Defined.

(** ** Two runs under different enumeration orders of sets *)

Lemma do_import_around_resolving (c : Constants) (w : World)
  (o : SetIteration) (s : state) :
  do_import c (with_set_iteration o w) s
  = bind (before_resolving c w) (fun _ =>
    bind (_resolve_entities c (with_set_iteration o w)) (fun _ =>
    after_resolving c w)) s.
Proof.
  unfold do_import, before_resolving, after_resolving, reshape_if_enabled.
  rewrite !bind_assoc. apply bind_ext. intros _ s1.
  rewrite !bind_assoc. apply bind_ext. intros _ s2.
  rewrite !bind_assoc. apply bind_ext. intros _ s3.
  apply bind_ext. intros _ s4. apply bind_ext. intros _ s5.
  reflexivity.
Qed.

Lemma isin_ext (U1 U2 : list string) (v : cell) :
  (forall x, In x U1 <-> In x U2) -> isin U1 v = isin U2 v.
Proof.
  intros H. destruct v as [|x|n]; try reflexivity. cbn [isin].
  destruct (Str.mem x U2) eqn:E.
  - apply mem_true_iff. apply H. now apply mem_true_iff.
  - apply mem_false_iff. intros Hx. apply H in Hx.
    apply mem_true_iff in Hx. congruence.
Qed.

Lemma without_unresolved_ext (U1 U2 : list string) (d : DataFrame) :
  (forall x, In x U1 <-> In x U2) ->
  without_unresolved U1 d = without_unresolved U2 d.
Proof.
  intros H.
  assert (E : drop_index (index_where_column0_isin U1 d) d
              = drop_index (index_where_column0_isin U2 d) d).
  { unfold index_where_column0_isin.
    rewrite (filter_ext _ (fun r : row => isin U2 (hd NaN (snd r))));
      [reflexivity|].
    intros r. now apply isin_ext. }
  unfold without_unresolved. destruct U1 as [|x1 t1], U2 as [|x2 t2].
  - reflexivity.
  - exfalso. apply (H x2). now left.
  - exfalso. apply (H x1). now left.
  - exact E.
Qed.

Lemma resolve_entities_Raise_any_order (c : Constants) (w : World)
  (o1 o2 : SetIteration) (s s' : state) (e : exception) :
  _resolve_entities c (with_set_iteration o1 w) s = (Raise e, s') ->
  _resolve_entities c (with_set_iteration o2 w) s = (Raise e, s').
Proof.
  unfold _resolve_entities, bind, get_self, lift, dc_resolve_entities.
  cbn [fst snd resolve_entities with_set_iteration set_iteration].
  destruct (iloc_column0 (df (fst s))) as [column|]; [|trivial].
  destruct (filter_entities c column []) as [[es p]|]; [|trivial].
  cbn [fst snd].
  destruct (resolve_entities w es (entity_type (fst s))) as [dcids|];
    [|trivial].
  cbn [set_df fst snd]. unfold _create_debug_resolve_dataframe.
  destruct (debug_resolve_columns c dcids p _) as [[? ?] ?].
  destruct (iterate o1 _); discriminate.
Qed.

Lemma reshape_if_enabled_audit (c : Constants) (a : DataFrame)
  (self : SimpleStatsImporter) (fx : Effects) :
  reshape_if_enabled c (with_debug_resolve_df a self, fx)
  = (fst (reshape_if_enabled c (self, fx)),
     (with_debug_resolve_df a (fst (snd (reshape_if_enabled c (self, fx)))),
      snd (snd (reshape_if_enabled c (self, fx))))).
Proof.
  unfold reshape_if_enabled.
  destruct (UNPIVOT_VARIABLES c); [|reflexivity].
  unfold _unpivot_variables, _reorder_columns, bind, get_self, lift, set_df.
  cbn [fst snd df with_debug_resolve_df].
  destruct (melt [COLUMN_DCID c; COLUMN_DATE c] (COLUMN_VARIABLE c)
              (COLUMN_VALUE c) (df self)) as [long|]; [|reflexivity].
  cbn [fst snd df with_df].
  destruct (reindex_columns
              [COLUMN_DCID c; COLUMN_VARIABLE c; COLUMN_DATE c; COLUMN_VALUE c]
              (dropna long)); reflexivity.
Qed.

Lemma audit_frame_any_order (c : Constants) (resolved pre : dict string)
  (U1 U2 : list string) :
  NoDup [DEBUG_COLUMN_NAME c; DEBUG_COLUMN_DCID c; DEBUG_COLUMN_LINK c] ->
  Permutation U1 U2 ->
  same_up_to_unresolved_order c (audit_frame c resolved pre U1)
                              (audit_frame c resolved pre U2).
Proof.
  intros Hd Hp.
  destruct (audit_frame_records c Hd resolved pre U1) as [Hc1 Hr1].
  destruct (audit_frame_records c Hd resolved pre U2) as [Hc2 Hr2].
  split; [congruence|].
  exists U1, U2. eexists. split; [exact Hp|].
  rewrite Hr1, Hr2. split.
  - f_equal. apply map_ext. intros n. unfold audit_record, unresolved_record.
    now rewrite browser_link_marker.
  - f_equal. apply map_ext. intros n. unfold audit_record, unresolved_record.
    now rewrite browser_link_marker.
Qed.

(** C10, amended. Two runs on the same input, configuration and resolver
    that differ in the enumeration order of sets return alike, with the
    same table, the same directories and resolver calls; the files they
    wrote are the same, or the same up to the last one, the audit file,
    whose records differ at most in the order of the unresolved names. *)
Theorem do_import_any_order (c : Constants) (w : World)
  (o1 o2 : SetIteration) (s : state) :
  NoDup [DEBUG_COLUMN_NAME c; DEBUG_COLUMN_DCID c; DEBUG_COLUMN_LINK c] ->
  let out1 := do_import c (with_set_iteration o1 w) s in
  let out2 := do_import c (with_set_iteration o2 w) s in
  fst out1 = fst out2
  /\ df (self_after out1) = df (self_after out2)
  /\ directories (effects_after out1) = directories (effects_after out2)
  /\ resolver_calls (effects_after out1) = resolver_calls (effects_after out2)
  /\ (files (effects_after out1) = files (effects_after out2)
      \/ exists written a1 a2,
           files (effects_after out1)
           = written ++ [(debug_resolve_file (self_after out1), to_csv a1)]
           /\ files (effects_after out2)
              = written ++ [(debug_resolve_file (self_after out1), to_csv a2)]
           /\ same_up_to_unresolved_order c a1 a2).
Proof.
  intros Hd. cbv zeta. rewrite !do_import_around_resolving.
  destruct (before_resolving c w s) as [[[] | e] [self3 fx3]] eqn:Eb.
  2: { rewrite (@bind_Raise _ _ _
                  (fun _ => bind (_resolve_entities c (with_set_iteration o1 w))
                                 (fun _ => after_resolving c w)) _ _ _ Eb).
       rewrite (@bind_Raise _ _ _
                  (fun _ => bind (_resolve_entities c (with_set_iteration o2 w))
                                 (fun _ => after_resolving c w)) _ _ _ Eb).
       repeat split. now left. }
  rewrite (@bind_Ok _ _ _
             (fun _ => bind (_resolve_entities c (with_set_iteration o1 w))
                            (fun _ => after_resolving c w)) _ _ _ Eb).
  rewrite (@bind_Ok _ _ _
             (fun _ => bind (_resolve_entities c (with_set_iteration o2 w))
                            (fun _ => after_resolving c w)) _ _ _ Eb).
  destruct (_resolve_entities c (with_set_iteration o1 w) (self3, fx3))
    as [[[] | e] [self4 fx4]] eqn:Er1.
  2: { pose proof (resolve_entities_Raise_any_order c w o1 o2 _ Er1) as Er2.
       rewrite (@bind_Raise _ _ _ (fun _ => after_resolving c w) _ _ _ Er1).
       rewrite (@bind_Raise _ _ _ (fun _ => after_resolving c w) _ _ _ Er2).
       repeat split. now left. }
  destruct (resolve_entities_Ok_inv _ _ _ _ Er1) as [names [dcids [Hc [Hn Hr]]]].
  pose proof (resolve_entities_run c (with_set_iteration o1 w) self3 fx3
                names Hc Hn Hr) as E1.
  pose proof (resolve_entities_run c (with_set_iteration o2 w) self3 fx3
                names Hc Hn Hr) as E2.
  cbv zeta in E1, E2. cbn [set_iteration with_set_iteration] in E1, E2.
  clear Er1.
  set (U1 := iterate o1 (unresolved_names (candidates c names) dcids)) in *.
  set (U2 := iterate o2 (unresolved_names (candidates c names) dcids)) in *.
  assert (HU : forall x, In x U1 <-> In x U2).
  { intros x. unfold U1, U2. now rewrite !iterate_In. }
  rewrite <- (without_unresolved_ext _ _ _ HU) in E2.
  rewrite (@bind_Ok _ _ _ (fun _ => after_resolving c w) _ _ _ E1).
  rewrite (@bind_Ok _ _ _ (fun _ => after_resolving c w) _ _ _ E2).
  pose proof (audit_frame_any_order c dcids (overrides c names [])
                Hd (iterate_Permutation o1 o2
                      (unresolved_names (candidates c names) dcids)))
    as Hsame.
  fold U1 U2 in Hsame.
  set (a1 := audit_frame c dcids (overrides c names []) U1) in *.
  set (a2 := audit_frame c dcids (overrides c names []) U2) in *.
  set (X := with_df _ self3). unfold after_resolving, bind.
  rewrite !reshape_if_enabled_audit.
  destruct (reshape_if_enabled c (X, after_call (candidates c names)
                                       (entity_type self3) fx3))
    as [[[] | e] [self5 fx5]]; cbn [fst snd].
  2: { unfold self_after, effects_after. cbn [fst snd df with_debug_resolve_df].
       repeat split. now left. }
  unfold _write_csvs, bind, get_self, write_csv, self_after, effects_after.
  cbn [fst snd df with_debug_resolve_df observations_file debug_resolve_file
       debug_resolve_df].
  destruct (can_write w (observations_file self5)); cbn [fst snd].
  2: { repeat split. now left. }
  destruct (can_write w (debug_resolve_file self5));
    cbn [fst snd df with_debug_resolve_df directories files resolver_calls
         debug_resolve_file].
  - repeat split. right. eexists. exists a1, a2. repeat split; apply Hsame.
  - repeat split. now left.
Qed.

Lemma do_import_any_order_witness :
  let c := sample_constants in
  let w := sample_world unknown_csv [] [] forward_order in
  let s := (sample_importer, no_effects) in
  let out1 := do_import c (with_set_iteration forward_order w) s in
  let out2 := do_import c (with_set_iteration backward_order w) s in
  fst out1 = fst out2
  /\ df (self_after out1) = df (self_after out2)
  /\ directories (effects_after out1) = directories (effects_after out2)
  /\ resolver_calls (effects_after out1) = resolver_calls (effects_after out2)
  /\ (files (effects_after out1) = files (effects_after out2)
      \/ exists written a1 a2,
           files (effects_after out1)
           = written ++ [(debug_resolve_file (self_after out1), to_csv a1)]
           /\ files (effects_after out2)
              = written ++ [(debug_resolve_file (self_after out1), to_csv a2)]
           /\ same_up_to_unresolved_order c a1 a2).
Proof.
  intros c w s.
  apply (@do_import_any_order c w forward_order backward_order s).
  repeat constructor; simpl; intuition discriminate.
Defined.

(** C10 as stated fails: under two enumeration orders of the set of
    unresolved names, the two runs write the audit records of ["e1"] and
    ["e2"] in opposite orders. *)
Lemma do_import_any_order_counterexample :
  let c := sample_constants in
  let w := sample_world unknown_csv [] [] forward_order in
  let s := (sample_importer, no_effects) in
  let out1 := do_import c (with_set_iteration forward_order w) s in
  let out2 := do_import c (with_set_iteration backward_order w) s in
  fst out1 = Ok tt
  /\ fst out2 = Ok tt
  /\ option_map (fun audit => map snd (rows audit))
                (debug_resolve_df (self_after out1))
     = Some [[Str "e1"; Str "UNRESOLVED"; Str ""];
             [Str "e2"; Str "UNRESOLVED"; Str ""]]
  /\ option_map (fun audit => map snd (rows audit))
                (debug_resolve_df (self_after out2))
     = Some [[Str "e2"; Str "UNRESOLVED"; Str ""];
             [Str "e1"; Str "UNRESOLVED"; Str ""]]
  /\ files (effects_after out1) <> files (effects_after out2).
Proof.
  vm_compute. repeat split. discriminate.
Qed.

(** * Further properties of the importer *)

(** ** Override references *)







(** ** The candidates and the dictionary of override references *)

Lemma filter_filter (A : Type) (f g : A -> bool) (l : list A) :
  filter f (filter g l) = filter (fun x => g x && f x) l.
Proof.
  induction l as [|a t IH]; [reflexivity|]. cbn [filter].
  destruct (g a); cbn [filter andb]; [destruct (f a)|]; now rewrite IH.
Qed.

Lemma overrides_keys_order (c : Constants) (names : list string) :
  forall pre0,
    Dict.keys (overrides c names pre0)
    = Dict.keys pre0
      ++ filter (fun x => negb (Str.mem x (Dict.keys pre0)))
                (first_occurrences (filter (is_override c) names)).
Proof.
  induction names as [|e t IH]; intros pre0.
  - cbn. now rewrite app_nil_r.
  - change (overrides c (e :: t) pre0)
      with (overrides c t (if is_override c e
                           then Dict.set e (override_dcid c e) pre0
                           else pre0)).
    rewrite IH. cbn [filter]. destruct (is_override c e) eqn:Ee; [|reflexivity].
    cbn [first_occurrences filter]. rewrite keys_set.
    destruct (Str.mem e (Dict.keys pre0)) eqn:Em; cbn [negb].
    + f_equal. rewrite filter_filter. apply filter_ext_in. intros x _.
      destruct (String.eqb_spec x e) as [-> | _]; cbn [negb andb];
        [now rewrite Em | reflexivity].
    + rewrite <- app_assoc. cbn [app]. do 2 f_equal.
      rewrite filter_filter. apply filter_ext_in. intros x _.
      unfold Str.mem. rewrite existsb_app. cbn [existsb].
      rewrite orb_false_r, negb_orb. apply andb_comm.
Qed.

Lemma filter_partition_length (A : Type) (f : A -> bool) (l : list A) :
  List.length (filter (fun x => negb (f x)) l) + List.length (filter f l)
  = List.length l.
Proof.
  induction l as [|a t IH]; [reflexivity|]. cbn [filter].
  destruct (f a); cbn [negb List.length]; rewrite <- IH;
    [apply Nat.add_succ_r | reflexivity].
Qed.

(** X2. On a column of texts the filter of [_resolve_entities] returns:
    the candidates are the names without the prefix, in the column's order
    and with their repetitions; the dictionary has one key per distinct
    override reference, in order of first occurrence, each bound to what
    follows its prefix, stripped; together they account for every cell. *)
Theorem filter_entities_partition (c : Constants) (names : list string) :
  exists pre,
    filter_entities c (map Str names) [] = Ok (candidates c names, pre)
    /\ candidates c names = filter (fun e => negb (is_override c e)) names
    /\ Dict.keys pre = first_occurrences (filter (is_override c) names)
    /\ Dict.values pre = map (override_dcid c) (Dict.keys pre)
    /\ List.length (candidates c names)
       + List.length (filter (is_override c) names)
       = List.length names.
Proof.
  exists (overrides c names []). split; [apply filter_entities_names|].
  split; [reflexivity|]. split; [|split].
  - rewrite overrides_keys_order. cbn [Dict.keys map app Str.mem existsb negb].
    apply filter_all_true. reflexivity.
  - apply overrides_values_map.
  - apply filter_partition_length.
Qed.

(** ** Failures of [_resolve_entities] *)

Lemma filter_entities_AttributeError (c : Constants) (column : list cell) :
  (exists v, In v column /\ forall s, v <> Str s) ->
  forall pre0, filter_entities c column pre0 = Raise AttributeError.
Proof.
  induction column as [|v t IH]; intros [x [Hx Hn]] pre0; [contradiction|].
  cbn [filter_entities]. destruct v as [|e|n]; try reflexivity.
  destruct Hx as [<- | Hx]; [now elim (Hn e)|].
  cbn [remove_pre_resolved].
  destruct (Str.startswith e (DCID_OVERRIDE_PREFIX c)); cbn [rbind snd];
    rewrite IH by (exists x; now split); reflexivity.
Qed.

(** X3. [_resolve_entities] raises [IndexError] on a table with no column
    and [AttributeError] when a cell of the entity column is not a text
    (missing, or a number), in both cases before the resolver is called and
    with the importer as it was; an exception of the resolver is raised on,
    with the table not yet rewritten and no audit table set. *)
Theorem resolve_entities_failures (c : Constants) (w : World)
  (self : SimpleStatsImporter) (fx : Effects) :
  (columns (df self) = [] ->
   _resolve_entities c w (self, fx) = (Raise IndexError, (self, fx)))
  /\ (columns (df self) <> [] ->
      (exists r, In r (rows (df self)) /\ forall s, entity r <> Str s) ->
      _resolve_entities c w (self, fx) = (Raise AttributeError, (self, fx)))
  /\ (forall names e,
         columns (df self) <> [] ->
         map entity (rows (df self)) = map Str names ->
         resolve_entities w (candidates c names) (entity_type self) = Raise e ->
         _resolve_entities c w (self, fx)
         = (Raise e,
            (self, after_call (candidates c names) (entity_type self) fx))).
Proof.
  split; [|split].
  - intros Hc. unfold _resolve_entities, bind. msimpl.
    rewrite iloc_column0_entity, Hc. reflexivity.
  - intros Hc [r [Hr Hn]]. unfold _resolve_entities, bind. msimpl.
    rewrite iloc_column0_entity.
    destruct (columns (df self)) as [|c0 cs]; [contradiction|]. msimpl.
    rewrite filter_entities_AttributeError; [reflexivity|].
    exists (entity r). split; [now apply in_map | exact Hn].
  - intros names e Hc Hn Hr. unfold _resolve_entities, bind. msimpl.
    rewrite iloc_column0_entity.
    destruct (columns (df self)) as [|c0 cs]; [contradiction|]. msimpl.
    rewrite Hn, filter_entities_names. msimpl.
    unfold dc_resolve_entities. msimpl. rewrite Hr. reflexivity.
Qed.

Lemma resolve_entities_failures_witness :
  let c := sample_constants in
  (_resolve_entities c (sample_world nameless_csv [] [] forward_order)
     (sample_importer, no_effects)
   = (Raise IndexError, (sample_importer, no_effects)))
  /\ (_resolve_entities c (sample_world nameless_csv [] [] forward_order)
        (loaded nameless_csv, no_effects)
      = (Raise AttributeError, (loaded nameless_csv, no_effects)))
  /\ (_resolve_entities c (unreachable_resolver_world scenario_csv)
        (loaded scenario_csv, no_effects)
      = (Raise OSError,
         (loaded scenario_csv,
          after_call ["e1"; "e2"] "Country" no_effects))).
Proof.
  intros c. split; [|split].
  - apply (proj1 (resolve_entities_failures c _ sample_importer no_effects)).
    reflexivity.
  - apply (proj1 (proj2 (resolve_entities_failures c _ (loaded nameless_csv)
                           no_effects))).
    + discriminate.
    + exists (1, [NaN; Str "20"]). split; [simpl; tauto | discriminate].
  - apply (proj2 (proj2 (resolve_entities_failures c
                           (unreachable_resolver_world scenario_csv)
                           (loaded scenario_csv) no_effects))
             ["e1"; "e2"; "dcid:X"] OSError).
    + discriminate.
    + reflexivity.
    + reflexivity.
Defined.

(** ** What [_resolve_entities] keeps *)

Lemma replace_cell_text (m : dict string) (s : string) :
  exists s', replace_cell m (Str s) = Str s'.
Proof.
  cbn [replace_cell]. destruct (Dict.get s m) as [s'|]; eexists; reflexivity.
Qed.

Lemma entity_text (d : DataFrame) (names : list string) (r : row) :
  map entity (rows d) = map Str names ->
  In r (rows d) -> exists n, entity r = Str n /\ In n names.
Proof.
  intros Hn Hr. apply (in_map entity) in Hr. rewrite Hn in Hr.
  apply in_map_iff in Hr. destruct Hr as [n [E Hin]]. now exists n.
Qed.

Lemma without_unresolved_columns (U : list string) (d : DataFrame) :
  columns (without_unresolved U d) = columns d.
Proof. unfold without_unresolved. now destruct U. Qed.

Lemma set_difference_nil (a b : list string) :
  (forall n, In n a -> In n b) -> set_difference a b = [].
Proof.
  unfold set_difference. induction a as [|x t IH]; intros H; [reflexivity|].
  cbn [filter].
  assert (Hx : Str.mem x b = true) by (apply mem_true_iff, H; now left).
  rewrite Hx. cbn [negb]. apply IH. intros n Hn. apply H. now right.
Qed.

Section ResolveKeeps.
Variables (c : Constants) (w : World).
Variables (self self' : SimpleStatsImporter) (fx fx' : Effects).
Variables (names : list string) (dcids : dict string).

Hypothesis Hrun : _resolve_entities c w (self, fx) = (Ok tt, (self', fx')).
Hypothesis Hnames : map entity (rows (df self)) = map Str names.
Hypothesis Hres :
  resolve_entities w (candidates c names) (entity_type self) = Ok dcids.

(** X4. A run of [_resolve_entities] that returns leaves the column labels
    and the other fields of the importer as they were; the rows it leaves
    are input rows, in their order and under their labels, with only the
    entity cell rewritten; every entity cell left is a text; and no row is
    added. *)
Theorem resolve_entities_invariants :
  columns (df self') = columns (df self)
  /\ (input_path self' = input_path self
      /\ output_dir self' = output_dir self
      /\ entity_type self' = entity_type self
      /\ ignore_columns self' = ignore_columns self)
  /\ (exists dropped,
         Forall2 (fun r r' => fst r' = fst r /\ tl (snd r') = tl (snd r))
                 (kept dropped (rows (df self))) (rows (df self')))
  /\ (forall r', In r' (rows (df self')) -> exists s, entity r' = Str s)
  /\ List.length (rows (df self')) <= List.length (rows (df self)).
Proof.
  destruct (@resolve_entities_shape _ _ _ _ _ _ _ _ Hrun Hnames Hres)
    as [-> _].
  cbn [df with_df with_debug_resolve_df input_path output_dir entity_type
       ignore_columns].
  split; [now rewrite without_unresolved_columns|].
  split; [now repeat split|].
  rewrite resolved_rows. split; [|split].
  - eexists. apply Forall2_map_same. intros r _.
    now rewrite rewrite_row_label, rewrite_row_tl.
  - intros r' Hr'. apply in_map_iff in Hr'. destruct Hr' as [r [<- Hr]].
    apply kept_In in Hr. destruct Hr as [Hr _].
    destruct (entity_text _ _ _ Hnames Hr) as [n [En _]].
    rewrite (rewrite_row_entity _ _ _ En). unfold with_entity, entity.
    cbn [snd hd].
    destruct (replace_cell_text dcids n) as [s1 ->].
    destruct (replace_cell_text (overrides c names []) s1) as [s2 ->].
    now exists s2.
  - rewrite length_map. unfold kept. apply filter_length_le.
Qed.

(** X5. When every candidate is a name of the resolver's mapping, nothing
    is dropped: the output has the rows of the input, under the same
    labels, each with its entity rewritten. *)
Theorem resolve_entities_keeps_all :
  (forall n, In n (candidates c names) -> In n (Dict.keys dcids)) ->
  rows (df self')
  = map (rewrite_row dcids (overrides c names [])) (rows (df self))
  /\ map fst (rows (df self')) = map fst (rows (df self)).
Proof.
  intros Hall.
  destruct (@resolve_entities_shape _ _ _ _ _ _ _ _ Hrun Hnames Hres)
    as [-> _].
  cbn [df with_df with_debug_resolve_df].
  unfold unresolved_names.
  rewrite (set_difference_nil _ _ Hall), iterate_nil. cbn [without_unresolved].
  rewrite rewritten_rows. split; [reflexivity|].
  rewrite map_map. apply map_ext. intros r. apply rewrite_row_label.
Qed.

End ResolveKeeps.

Lemma resolve_entities_invariants_witness :
  let w := sample_world scenario_csv scenario_mapping [] forward_order in
  let self := loaded scenario_csv in
  let out := _resolve_entities sample_constants w (self, no_effects) in
  let self' := self_after out in
  columns (df self') = columns (df self)
  /\ (input_path self' = input_path self
      /\ output_dir self' = output_dir self
      /\ entity_type self' = entity_type self
      /\ ignore_columns self' = ignore_columns self)
  /\ (exists dropped,
         Forall2 (fun r r' => fst r' = fst r /\ tl (snd r') = tl (snd r))
                 (kept dropped (rows (df self))) (rows (df self')))
  /\ (forall r', In r' (rows (df self')) -> exists s, entity r' = Str s)
  /\ List.length (rows (df self')) <= List.length (rows (df self)).
Proof.
  intros w self out self'.
  apply (@resolve_entities_invariants sample_constants w self self' no_effects
           (effects_after out) ["e1"; "e2"; "dcid:X"] scenario_mapping).
  - vm_compute. reflexivity.
  - reflexivity.
  - reflexivity.
Defined.

Lemma resolve_entities_keeps_all_witness :
  let c := sample_constants in
  let dcids := [("e1", "E1"); ("e2", "E2")] in
  let w := sample_world scenario_csv dcids [] forward_order in
  let self := loaded scenario_csv in
  let out := _resolve_entities c w (self, no_effects) in
  let names := ["e1"; "e2"; "dcid:X"] in
  rows (df (self_after out))
  = map (rewrite_row dcids (overrides c names [])) (rows (df self))
  /\ map fst (rows (df (self_after out))) = map fst (rows (df self)).
Proof.
  intros c dcids w self out names.
  apply (@resolve_entities_keeps_all c w self (self_after out) no_effects
           (effects_after out) names dcids).
  - vm_compute. reflexivity.
  - reflexivity.
  - reflexivity.
  - simpl. intros n [<- | [<- | []]]; simpl; tauto.
Defined.

(** ** The names of the audit table *)

(** X6. When the resolver's mapping is a dictionary over names it was
    sent, the audit table has exactly one row for each distinct entity
    reference of the column, whatever the number of rows that hold it. *)
Theorem audit_names (c : Constants) (w : World)
  (self self' : SimpleStatsImporter) (fx fx' : Effects)
  (names : list string) (dcids : dict string) :
  _resolve_entities c w (self, fx) = (Ok tt, (self', fx')) ->
  map entity (rows (df self)) = map Str names ->
  resolve_entities w (candidates c names) (entity_type self) = Ok dcids ->
  NoDup [DEBUG_COLUMN_NAME c; DEBUG_COLUMN_DCID c; DEBUG_COLUMN_LINK c] ->
  Dict.distinct_keys dcids = true ->
  (forall k, In k (Dict.keys dcids) -> In k (candidates c names)) ->
  exists audit L,
    debug_resolve_df self' = Some audit
    /\ map entity (rows audit) = map Str L
    /\ NoDup L
    /\ (forall x, In x L <-> In x names)
    /\ List.length (rows audit) = distinct names.
Proof.
  intros Hrun Hnames Hres Hcols Hkeys Hsub.
  destruct (@resolve_entities_shape _ _ _ _ _ _ _ _ Hrun Hnames Hres)
    as [-> _].
  cbn [debug_resolve_df with_debug_resolve_df].
  set (U := iterate (set_iteration w)
                    (unresolved_names (candidates c names) dcids)).
  set (pre := overrides c names []).
  exists (audit_frame c dcids pre U), (U ++ Dict.keys pre ++ Dict.keys dcids).
  destruct (audit_frame_records c Hcols dcids pre U) as [_ Er].
  assert (Hent : map entity (rows (audit_frame c dcids pre U))
                 = map Str (U ++ Dict.keys pre ++ Dict.keys dcids)).
  { transitivity (map (hd NaN)
                       (map snd (rows (audit_frame c dcids pre U)))).
    - now rewrite map_map.
    - rewrite Er, !map_app, !map_map. unfold Dict.keys.
      rewrite !map_map. reflexivity. }
  assert (HU : forall x, In x U <-> In x names /\ is_override c x = false
                                    /\ Dict.get x dcids = None).
  { intros x. unfold U.
    rewrite iterate_In, unresolved_names_In, candidates_In. tauto. }
  assert (HP : forall x, In x (Dict.keys pre)
                         <-> In x names /\ is_override c x = true).
  { intros x. unfold pre. rewrite overrides_keys_In. cbn [Dict.keys map In].
    tauto. }
  assert (HR : forall x, In x (Dict.keys dcids) ->
                         In x names /\ is_override c x = false).
  { intros x Hx. now apply candidates_In, Hsub. }
  assert (Hnd : NoDup (U ++ Dict.keys pre ++ Dict.keys dcids)).
  { apply NoDup_app.
    - apply iterate_NoDup.
    - apply NoDup_app.
      + apply overrides_NoDup. constructor.
      + now apply distinct_keys_NoDup.
      + intros x Hx Hx'. apply HP in Hx. apply HR in Hx'.
        destruct Hx as [_ Hx], Hx' as [_ Hx']. congruence.
    - intros x Hx Hx'. apply HU in Hx. destruct Hx as [_ [Ho Hg]].
      apply in_app_or in Hx'. destruct Hx' as [Hx' | Hx'].
      + apply HP in Hx'. destruct Hx' as [_ Hx']. congruence.
      + apply get_None_iff in Hg. contradiction. }
  assert (Hin : forall x, In x (U ++ Dict.keys pre ++ Dict.keys dcids)
                          <-> In x names).
  { intros x. rewrite !in_app_iff, HU, HP. split.
    - intros [[H _] | [[H _] | H]]; try assumption. now apply HR in H.
    - intros H. destruct (is_override c x) eqn:Eo; [tauto|].
      destruct (Dict.get x dcids) as [v|] eqn:Eg; [|tauto].
      right. right. now apply get_Some_key in Eg. }
  split; [reflexivity|]. split; [exact Hent|]. split; [exact Hnd|].
  split; [exact Hin|].
  transitivity (List.length (map entity (rows (audit_frame c dcids pre U)))).
  - symmetry. apply length_map.
  - rewrite Hent, length_map. now apply nodup_length_of_set.
Qed.

Lemma audit_names_witness :
  let c := sample_constants in
  let w := sample_world scenario_csv scenario_mapping [] forward_order in
  let out := _resolve_entities c w (loaded scenario_csv, no_effects) in
  exists audit L,
    debug_resolve_df (self_after out) = Some audit
    /\ map entity (rows audit) = map Str L
    /\ NoDup L
    /\ (forall x, In x L <-> In x ["e1"; "e2"; "dcid:X"])
    /\ List.length (rows audit) = distinct ["e1"; "e2"; "dcid:X"].
Proof.
  intros c w out.
  apply (@audit_names c w (loaded scenario_csv) (self_after out) no_effects
           (effects_after out) ["e1"; "e2"; "dcid:X"] scenario_mapping).
  - vm_compute. reflexivity.
  - reflexivity.
  - reflexivity.
  - repeat constructor; simpl; intuition discriminate.
  - reflexivity.
  - simpl. intros k [<- | []]. now left.
Defined.

(** ** Renaming the columns *)

Lemma rename_column_run (i : nat) (name : string)
  (self : SimpleStatsImporter) (fx : Effects) :
  rename_column i name (self, fx)
  = match array_set i name (columns (df self)) with
    | Ok cols =>
        (Ok tt, (with_df {| columns := cols; rows := rows (df self) |} self, fx))
    | Raise e => (Raise e, (self, fx))
    end.
Proof.
  unfold rename_column, bind, get_self, lift, set_df. cbn [fst snd].
  now destruct (array_set i name (columns (df self))).
Qed.

(** X7. [_rename_columns] renames by position: the first column takes the
    entity-identifier name and, with reshaping, the second takes the date
    name, whatever they were called; the other labels and the rows are
    kept.  On a table with no column it raises [IndexError]; with
    reshaping, on a table with one column it raises [IndexError] after the
    first column has been renamed. *)
Theorem rename_columns_spec (c : Constants) (self : SimpleStatsImporter)
  (fx : Effects) :
  let renamed cols :=
    (with_df {| columns := cols; rows := rows (df self) |} self, fx) in
  (columns (df self) = [] ->
   _rename_columns c (self, fx) = (Raise IndexError, (self, fx)))
  /\ (forall x rest,
         UNPIVOT_VARIABLES c = false -> columns (df self) = x :: rest ->
         _rename_columns c (self, fx)
         = (Ok tt, renamed (COLUMN_DCID c :: rest)))
  /\ (forall x,
         UNPIVOT_VARIABLES c = true -> columns (df self) = [x] ->
         _rename_columns c (self, fx)
         = (Raise IndexError, renamed [COLUMN_DCID c]))
  /\ (forall x y rest,
         UNPIVOT_VARIABLES c = true -> columns (df self) = x :: y :: rest ->
         _rename_columns c (self, fx)
         = (Ok tt, renamed (COLUMN_DCID c :: COLUMN_DATE c :: rest))).
Proof.
  cbv zeta. unfold _rename_columns, bind. split; [|split; [|split]].
  - intros H. rewrite rename_column_run, H. reflexivity.
  - intros x rest Hu H. rewrite rename_column_run, H, Hu. reflexivity.
  - intros x Hu H. rewrite rename_column_run, H, Hu. cbn [array_set].
    rewrite rename_column_run. reflexivity.
  - intros x y rest Hu H. rewrite rename_column_run, H, Hu. cbn [array_set].
    rewrite rename_column_run. reflexivity.
Qed.

Lemma rename_columns_spec_witness :
  let c := reshaping_constants in
  let one := {| columns := ["name"]; rows := [(0, [Str "e1"])] |} in
  (_rename_columns c (sample_importer, no_effects)
   = (Raise IndexError, (sample_importer, no_effects)))
  /\ (_rename_columns sample_constants (loaded scenario_csv, no_effects)
      = (Ok tt,
         (with_df {| columns := ["dcid"; "val"];
                     rows := rows (read_csv scenario_csv) |}
                  (loaded scenario_csv), no_effects)))
  /\ (_rename_columns c (with_df one sample_importer, no_effects)
      = (Raise IndexError,
         (with_df {| columns := ["dcid"]; rows := rows one |}
                  (with_df one sample_importer), no_effects)))
  /\ (_rename_columns c (loaded scenario_csv, no_effects)
      = (Ok tt,
         (with_df {| columns := ["dcid"; "date"];
                     rows := rows (read_csv scenario_csv) |}
                  (loaded scenario_csv), no_effects))).
Proof.
  intros c one. split; [|split; [|split]].
  - now apply (rename_columns_spec c sample_importer no_effects).
  - now apply (proj1 (proj2 (rename_columns_spec sample_constants
                               (loaded scenario_csv) no_effects))
                 "name" ["val"]).
  - now apply (proj1 (proj2 (proj2 (rename_columns_spec c
                               (with_df one sample_importer) no_effects)))
                 "name").
  - now apply (proj2 (proj2 (proj2 (rename_columns_spec c
                               (loaded scenario_csv) no_effects)))
                 "name" "val" []).
Defined.

(** ** Reading the input *)

Lemma range_index_labels (l : list (list cell)) :
  map fst (range_index l) = seq 0 (List.length l).
Proof.
  unfold range_index. generalize 0.
  induction l as [|x t IH]; intros n; cbn; [reflexivity | now rewrite IH].
Qed.

Lemma range_index_records (l : list (list cell)) :
  map snd (range_index l) = l.
Proof.
  unfold range_index. generalize 0.
  induction l as [|x t IH]; intros n; cbn; [reflexivity | now rewrite IH].
Qed.

Lemma concat_labels (a b : DataFrame) :
  map fst (rows (concat a b)) = map fst (rows a) ++ map fst (rows b).
Proof.
  unfold concat. cbn [rows]. rewrite map_app, !map_map. reflexivity.
Qed.

Lemma realign_same (h : list string) :
  NoDup h ->
  forall cells, List.length cells = List.length h ->
                map (fun name => cell_at h name cells) h = cells.
Proof.
  induction 1 as [|y h Hy Hnd IH]; intros [|v cells] Hl; try discriminate;
    [reflexivity|].
  cbn [map]. rewrite cell_at_cons, String.eqb_refl. f_equal.
  transitivity (map (fun name => cell_at h name cells) h).
  - apply map_ext_in. intros x Hx. rewrite cell_at_cons.
    destruct (String.eqb_spec x y) as [-> | _]; [contradiction | reflexivity].
  - apply IH. now injection Hl.
Qed.

Lemma filter_none (A : Type) (f : A -> bool) (l : list A) :
  (forall x, In x l -> f x = false) -> filter f l = [].
Proof.
  induction l as [|a t IH]; intros H; [reflexivity|]. cbn [filter].
  rewrite (H a (or_introl eq_refl)). apply IH. intros x Hx. apply H. now right.
Qed.

Lemma concat_same_header (a b : DataFrame) (h : list string) :
  NoDup h ->
  (columns a = h \/ (columns a = [] /\ rows a = [])) -> columns b = h ->
  (forall r, In r (rows a) -> List.length (snd r) = List.length h) ->
  (forall r, In r (rows b) -> List.length (snd r) = List.length h) ->
  columns (concat a b) = h /\ rows (concat a b) = rows a ++ rows b.
Proof.
  intros Hnd Ha Hb Hwa Hwb.
  assert (Hcols : columns (concat a b) = h).
  { unfold concat. cbn [columns]. rewrite Hb.
    destruct Ha as [-> | [-> _]].
    - rewrite filter_none; [apply app_nil_r|].
      intros x Hx. apply negb_false_iff. now apply mem_true_iff.
    - cbn [app]. apply filter_all_true. reflexivity. }
  split; [exact Hcols|].
  assert (Hid : forall old l,
             (old = h \/ l = []) ->
             (forall r, In r l -> List.length (snd r) = List.length h) ->
             map (realign old h) l = l).
  { intros old l [-> | ->] Hw; [|reflexivity].
    rewrite <- (map_id l) at 2. apply map_ext_in. intros [lab cells] Hr.
    unfold realign. cbn [fst snd]. f_equal.
    apply (realign_same Hnd). exact (Hw _ Hr). }
  unfold concat in *. cbn [columns rows] in *. rewrite Hcols.
  rewrite Hid, Hid; auto.
  destruct Ha as [Ha | [_ Ha]]; auto.
Qed.

Lemma read_csvs_from_dir_fold (w : World) (input_dir : string) :
  _read_csvs_from_dir w input_dir
  = fold_left (read_next w)
      (map (Str.os_path_join input_dir) (listdir w input_dir))
      (Ok Pandas.empty).
Proof. reflexivity. Qed.

Lemma read_next_Raise (w : World) (paths : list string) (e : exception) :
  fold_left (read_next w) paths (Raise e) = Raise e.
Proof. induction paths as [|p t IH]; [reflexivity | exact IH]. Qed.

Lemma read_fold_labels (w : World) (paths : list string) (fs : list csv) :
  Forall2 (fun path f => file_content w path = Ok f) paths fs ->
  forall d0, exists d,
    fold_left (read_next w) paths (Ok d0) = Ok d
    /\ map fst (rows d)
       = map fst (rows d0)
         ++ flat_map (fun f => seq 0 (List.length (records f))) fs.
Proof.
  induction 1 as [|p f paths fs Hp _ IH]; intros d0.
  - exists d0. cbn. now rewrite app_nil_r.
  - cbn [fold_left read_next rbind]. rewrite Hp. cbn [rbind].
    destruct (IH (concat d0 (read_csv f))) as [d [E L]].
    exists d. split; [exact E|].
    rewrite L, concat_labels. cbn [read_csv rows flat_map].
    now rewrite range_index_labels, app_assoc.
Qed.

Lemma read_fold_records (w : World) (h : list string) (paths : list string)
  (fs : list csv) :
  NoDup h ->
  Forall2 (fun path f => file_content w path = Ok f) paths fs ->
  (forall f, In f fs ->
             header f = h
             /\ forall rec, In rec (records f) ->
                            List.length rec = List.length h) ->
  forall d0 d,
    (columns d0 = h \/ (columns d0 = [] /\ rows d0 = [])) ->
    (forall r, In r (rows d0) -> List.length (snd r) = List.length h) ->
    fold_left (read_next w) paths (Ok d0) = Ok d ->
    (columns d = h \/ (fs = [] /\ d = d0))
    /\ map snd (rows d) = map snd (rows d0) ++ flat_map records fs.
Proof.
  intros Hnd HF. induction HF as [|p f paths fs Hp _ IH];
    intros Hfs d0 d Hc Hw E.
  - cbn in E. injection E as <-. split; [now right|]. cbn.
    now rewrite app_nil_r.
  - cbn [fold_left read_next rbind] in E. rewrite Hp in E. cbn [rbind] in E.
    destruct (Hfs f (or_introl eq_refl)) as [Hh Hrec].
    assert (Hwf : forall r, In r (rows (read_csv f)) ->
                            List.length (snd r) = List.length h).
    { intros r Hr. apply Hrec. rewrite <- (range_index_records (records f)).
      now apply in_map. }
    destruct (concat_same_header d0 (read_csv f) Hnd Hc Hh Hw Hwf)
      as [Hcc Hcr].
    assert (Hw' : forall r, In r (rows (concat d0 (read_csv f))) ->
                            List.length (snd r) = List.length h).
    { intros r Hr. rewrite Hcr in Hr. apply in_app_or in Hr.
      destruct Hr; auto. }
    destruct (IH (fun g Hg => Hfs g (or_intror Hg)) _ _ (or_introl Hcc) Hw' E)
      as [Hcol Hrows].
    split.
    + left. destruct Hcol as [Hcol | [_ ->]]; assumption.
    + rewrite Hrows, Hcr, map_app. cbn [read_csv rows flat_map].
      now rewrite range_index_records, app_assoc.
Qed.

(** X8. When every file of the directory can be read,
    [_read_csvs_from_dir] returns the rows of the files in the order of the
    listing, each row under the label it has in its own file, so that
    labels repeat from file to file.  When moreover the files share one
    header of distinct labels and every record has one cell per label, the
    table has this header and the records of the files, unchanged. *)
Theorem read_csvs_from_dir_spec (w : World) (input_dir : string)
  (fs : list csv) :
  Forall2 (fun path f => file_content w path = Ok f)
          (map (Str.os_path_join input_dir) (listdir w input_dir)) fs ->
  exists d,
    _read_csvs_from_dir w input_dir = Ok d
    /\ map fst (rows d)
       = flat_map (fun f => seq 0 (List.length (records f))) fs
    /\ (forall h,
           NoDup h -> fs <> [] ->
           (forall f, In f fs ->
                      header f = h
                      /\ forall rec, In rec (records f) ->
                                     List.length rec = List.length h) ->
           columns d = h /\ map snd (rows d) = flat_map records fs).
Proof.
  intros HF. rewrite read_csvs_from_dir_fold.
  destruct (@read_fold_labels _ _ _ HF Pandas.empty) as [d [E L]].
  exists d. split; [exact E|]. split; [exact L|].
  intros h Hnd Hne Hfs.
  destruct (@read_fold_records _ _ _ _ Hnd HF Hfs Pandas.empty d
              (or_intror (conj eq_refl eq_refl))
              (fun r (Hr : In r []) => match Hr with end) E)
    as [Hc Hr].
  split; [|exact Hr].
  destruct Hc as [Hc | [Hc _]]; [exact Hc | contradiction].
Qed.

Lemma read_csvs_from_dir_spec_witness :
  let fs := [{| header := ["name"; "val"];
                records := [[Str "e2"; Str "20"]] |};
             {| header := ["name"; "val"];
                records := [[Str "e1"; Str "10"]] |}] in
  exists d,
    _read_csvs_from_dir directory_world "input" = Ok d
    /\ map fst (rows d)
       = flat_map (fun f => seq 0 (List.length (records f))) fs
    /\ (forall h,
           NoDup h -> fs <> [] ->
           (forall f, In f fs ->
                      header f = h
                      /\ forall rec, In rec (records f) ->
                                     List.length rec = List.length h) ->
           columns d = h /\ map snd (rows d) = flat_map records fs).
Proof.
  intros fs.
  apply (@read_csvs_from_dir_spec directory_world "input" fs).
  repeat constructor.
Defined.

(** X9. [_read_csvs_from_dir] stops at the first file that cannot be
    read and raises its exception; on a directory with no file it returns
    the empty table. *)
Theorem read_csvs_from_dir_failure (w : World) (input_dir : string) :
  (listdir w input_dir = [] ->
   _read_csvs_from_dir w input_dir = Ok Pandas.empty)
  /\ (forall before name after fs e,
         listdir w input_dir = before ++ name :: after ->
         Forall2 (fun n f => file_content w (Str.os_path_join input_dir n)
                             = Ok f) before fs ->
         file_content w (Str.os_path_join input_dir name) = Raise e ->
         _read_csvs_from_dir w input_dir = Raise e).
Proof.
  split.
  - intros H. rewrite read_csvs_from_dir_fold, H. reflexivity.
  - intros before name after fs e Hl HF He.
    rewrite read_csvs_from_dir_fold, Hl, map_app, fold_left_app.
    assert (HF' : Forall2 (fun path f => file_content w path = Ok f)
                    (map (Str.os_path_join input_dir) before) fs).
    { clear -HF. induction HF; cbn [map]; constructor; assumption. }
    destruct (@read_fold_labels _ _ _ HF' Pandas.empty) as [d [E _]].
    rewrite E. cbn [map fold_left read_next rbind]. rewrite He.
    cbn [rbind]. apply read_next_Raise.
Qed.

Lemma read_csvs_from_dir_failure_witness :
  _read_csvs_from_dir empty_directory_world "input" = Ok Pandas.empty
  /\ _read_csvs_from_dir unreadable_file_world "input" = Raise OSError.
Proof.
  split.
  - now apply (read_csvs_from_dir_failure empty_directory_world "input").
  - apply (proj2 (read_csvs_from_dir_failure unreadable_file_world "input")
             ["a.csv"] "b.csv" [] [scenario_csv] OSError).
    + reflexivity.
    + repeat constructor.
    + reflexivity.
Defined.

(** ** The table that reaches [_resolve_entities] *)

Lemma init_run (w : World) (self : SimpleStatsImporter) (fx : Effects) :
  _init w (self, fx)
  = if can_makedirs w (output_dir self)
    then (Ok tt, (self, {| directories := directories fx ++ [output_dir self];
                           files := files fx;
                           resolver_calls := resolver_calls fx |}))
    else (Raise OSError, (self, fx)).
Proof. reflexivity. Qed.

Lemma read_csvs_run (w : World) (self : SimpleStatsImporter) (fx : Effects) :
  _read_csvs w (self, fx)
  = match (if isdir w (input_path self)
           then _read_csvs_from_dir w (input_path self)
           else rbind (file_content w (input_path self))
                      (fun f => Ok (read_csv f))) with
    | Ok d => (Ok tt, (with_df d self, fx))
    | Raise e => (Raise e, (self, fx))
    end.
Proof.
  unfold _read_csvs, bind, get_self, lift, set_df. cbn [fst snd].
  destruct (isdir w (input_path self)).
  - now destruct (_read_csvs_from_dir w (input_path self)).
  - now destruct (file_content w (input_path self)).
Qed.

Lemma drop_ignored_columns_labels (self self' : SimpleStatsImporter)
  (fx fx' : Effects) :
  _drop_ignored_columns (self, fx) = (Ok tt, (self', fx')) ->
  map fst (rows (df self')) = map fst (rows (df self)) /\ fx' = fx.
Proof.
  unfold _drop_ignored_columns, bind, get_self, lift, set_df, ret.
  cbn [fst snd]. destruct (ignore_columns self) as [|i l].
  - intros E. injection E as <- <-. now split.
  - unfold drop_columns.
    destruct (forallb _ (i :: l)); [|discriminate].
    intros E. injection E as <- <-. cbn [df with_df rows].
    split; [|reflexivity]. rewrite map_map. reflexivity.
Qed.

Lemma rename_columns_rows (c : Constants) (self self' : SimpleStatsImporter)
  (fx fx' : Effects) (r : result unit) :
  _rename_columns c (self, fx) = (r, (self', fx')) ->
  rows (df self') = rows (df self) /\ fx' = fx.
Proof.
  unfold _rename_columns, bind. rewrite rename_column_run.
  destruct (array_set 0 (COLUMN_DCID c) (columns (df self))) as [cols|e].
  - destruct (UNPIVOT_VARIABLES c).
    + rewrite rename_column_run. cbn [df with_df columns rows].
      destruct (array_set 1 (COLUMN_DATE c) cols);
        intros E; injection E as _ <- <-; now split.
    + intros E. injection E as _ <- <-. now split.
  - intros E. injection E as _ <- <-. now split.
Qed.

(** X10. When the input is a single file, the table that reaches
    [_resolve_entities] has one row per record of the file, and its index
    labels are 0, 1, ... in order, hence distinct; the only effect so far
    is that the output directory was ensured. *)
Theorem single_file_labels (c : Constants) (w : World)
  (self self' : SimpleStatsImporter) (fx fx' : Effects) (f : csv) :
  isdir w (input_path self) = false ->
  file_content w (input_path self) = Ok f ->
  before_resolving c w (self, fx) = (Ok tt, (self', fx')) ->
  map fst (rows (df self')) = seq 0 (List.length (records f))
  /\ NoDup (map fst (rows (df self')))
  /\ directories fx' = directories fx ++ [output_dir self]
  /\ files fx' = files fx
  /\ resolver_calls fx' = resolver_calls fx.
Proof.
  intros Hdir Hfile Hrun. unfold before_resolving in Hrun.
  apply bind_Ok_inv in Hrun. destruct Hrun as [[] [[self1 fx1] [H1 Hrun]]].
  apply bind_Ok_inv in Hrun. destruct Hrun as [[] [[self2 fx2] [H2 Hrun]]].
  apply bind_Ok_inv in Hrun. destruct Hrun as [[] [[self3 fx3] [H3 Hrun]]].
  rewrite init_run in H1.
  destruct (can_makedirs w (output_dir self)); [|discriminate].
  injection H1 as <- <-.
  rewrite read_csvs_run, Hdir, Hfile in H2. cbn [rbind] in H2.
  injection H2 as <- <-.
  apply drop_ignored_columns_labels in H3. destruct H3 as [L3 ->].
  apply rename_columns_rows in Hrun. destruct Hrun as [L4 ->].
  assert (L : map fst (rows (df self')) = seq 0 (List.length (records f))).
  { rewrite L4, L3. cbn [df with_df read_csv rows].
    apply range_index_labels. }
  split; [exact L|]. split; [rewrite L; apply seq_NoDup|].
  now repeat split.
Qed.

Lemma single_file_labels_witness :
  let c := sample_constants in
  let w := sample_world scenario_csv scenario_mapping [] forward_order in
  let out := before_resolving c w (sample_importer, no_effects) in
  map fst (rows (df (self_after out)))
  = seq 0 (List.length (records scenario_csv))
  /\ NoDup (map fst (rows (df (self_after out))))
  /\ directories (effects_after out)
     = directories no_effects ++ [output_dir sample_importer]
  /\ files (effects_after out) = files no_effects
  /\ resolver_calls (effects_after out) = resolver_calls no_effects.
Proof.
  intros c w out.
  apply (@single_file_labels c w sample_importer (self_after out) no_effects
           (effects_after out) scenario_csv).
  - reflexivity.
  - reflexivity.
  - vm_compute. reflexivity.
Defined.

(** ** Empty inputs *)

(** X11. On a directory with no file in it the run fails once the output
    directory is ensured: [KeyError] if columns are to be ignored,
    [IndexError] from the renaming otherwise; no file is written and the
    resolver is not called. *)
Theorem empty_directory_fails (c : Constants) (w : World)
  (self : SimpleStatsImporter) (fx : Effects) :
  isdir w (input_path self) = true ->
  listdir w (input_path self) = [] ->
  can_makedirs w (output_dir self) = true ->
  do_import c w (self, fx)
  = (Raise (match ignore_columns self with
            | [] => IndexError
            | _ :: _ => KeyError
            end),
     (with_df Pandas.empty self,
      {| directories := directories fx ++ [output_dir self];
         files := files fx;
         resolver_calls := resolver_calls fx |})).
Proof.
  intros Hdir Hlist Hmk. unfold do_import.
  erewrite bind_Ok by (rewrite init_run, Hmk; reflexivity).
  erewrite bind_Ok
    by (rewrite read_csvs_run, Hdir, read_csvs_from_dir_fold, Hlist;
        reflexivity).
  unfold _drop_ignored_columns, bind at 1 2. cbn [get_self fst snd].
  cbn [ignore_columns with_df].
  destruct (ignore_columns self) as [|i l]; reflexivity.
Qed.

Lemma empty_directory_fails_witness :
  do_import sample_constants empty_directory_world
    (sample_importer, no_effects)
  = (Raise IndexError,
     (with_df Pandas.empty sample_importer,
      {| directories := ["output"]; files := []; resolver_calls := [] |})).
Proof.
  apply (@empty_directory_fails sample_constants empty_directory_world
           sample_importer no_effects); reflexivity.
Defined.

(** X12. On a file with a header and no record, without reshaping, the
    resolver is still called, once and with no name; the run returns and
    writes an observations file with the header, its first label renamed,
    and no record, and an audit file that lists what the resolver returned
    and nothing else. *)
Theorem header_only_file (c : Constants) (w : World)
  (self : SimpleStatsImporter) (fx : Effects) (x : string)
  (rest : list string) (dcids : dict string) :
  UNPIVOT_VARIABLES c = false ->
  NoDup [DEBUG_COLUMN_NAME c; DEBUG_COLUMN_DCID c; DEBUG_COLUMN_LINK c] ->
  isdir w (input_path self) = false ->
  file_content w (input_path self)
  = Ok {| header := x :: rest; records := [] |} ->
  ignore_columns self = [] ->
  can_makedirs w (output_dir self) = true ->
  resolve_entities w [] (entity_type self) = Ok dcids ->
  can_write w (observations_file self) = true ->
  can_write w (debug_resolve_file self) = true ->
  let out := do_import c w (self, fx) in
  fst out = Ok tt
  /\ resolver_calls (effects_after out)
     = resolver_calls fx ++ [([], entity_type self)]
  /\ files (effects_after out)
     = files fx
       ++ [(observations_file self,
            {| header := COLUMN_DCID c :: rest; records := [] |});
           (debug_resolve_file self,
            {| header := [DEBUG_COLUMN_NAME c; DEBUG_COLUMN_DCID c;
                          DEBUG_COLUMN_LINK c];
               records := map (fun kv => audit_record c (fst kv) (snd kv))
                              dcids |})].
Proof.
  intros Hflat Hdebug Hdir Hfile Hign Hmk Hres Hw1 Hw2 out.
  unfold out, do_import.
  erewrite bind_Ok by (rewrite init_run, Hmk; reflexivity).
  erewrite bind_Ok
    by (rewrite read_csvs_run, Hdir, Hfile; reflexivity).
  set (fx1 := {| directories := directories fx ++ [output_dir self];
                 files := files fx; resolver_calls := resolver_calls fx |}).
  set (self2 := with_df (read_csv {| header := x :: rest; records := [] |})
                        self).
  assert (E3 : _drop_ignored_columns (self2, fx1) = (Ok tt, (self2, fx1))).
  { unfold _drop_ignored_columns, bind, get_self. cbn [fst snd].
    unfold self2. cbn [ignore_columns with_df]. now rewrite Hign. }
  erewrite bind_Ok by exact E3.
  set (self4 := with_df {| columns := COLUMN_DCID c :: rest; rows := [] |}
                        self2).
  assert (E4 : _rename_columns c (self2, fx1) = (Ok tt, (self4, fx1))).
  { unfold _rename_columns, bind. rewrite rename_column_run, Hflat.
    reflexivity. }
  erewrite bind_Ok by exact E4.
  assert (Hc : columns (df self4) <> []) by discriminate.
  assert (Hn : map entity (rows (df self4)) = map Str []) by reflexivity.
  pose proof (resolve_entities_run c w self4 fx1 [] Hc Hn Hres) as E5.
  cbv zeta in E5.
  change (unresolved_names (candidates c []) dcids) with (@nil string) in E5.
  rewrite iterate_nil in E5.
  change (candidates c []) with (@nil string) in E5.
  change (overrides c [] []) with (@nil (string * string)) in E5.
  erewrite bind_Ok by exact E5. rewrite Hflat.
  destruct (audit_frame_records c Hdebug dcids [] []) as [Ha1 Ha2].
  unfold _write_csvs, bind, get_self, write_csv, ret.
  cbn [fst snd with_debug_resolve_df with_df observations_file
       debug_resolve_file debug_resolve_df df self2 self4].
  rewrite Hw1. cbn [fst snd files]. rewrite Hw2.
  cbn [fst snd files effects_after resolver_calls after_call fx1
       entity_type with_df].
  split; [reflexivity|]. split; [reflexivity|].
  rewrite <- app_assoc. cbn [app]. unfold to_csv. rewrite Ha1, Ha2.
  reflexivity.
Qed.

Lemma header_only_file_witness :
  let c := sample_constants in
  let input := {| header := ["name"; "val"]; records := [] |} in
  let w := sample_world input [] [] forward_order in
  let out := do_import c w (sample_importer, no_effects) in
  fst out = Ok tt
  /\ resolver_calls (effects_after out)
     = resolver_calls no_effects ++ [([], entity_type sample_importer)]
  /\ files (effects_after out)
     = files no_effects
       ++ [(observations_file sample_importer,
            {| header := COLUMN_DCID c :: ["val"]; records := [] |});
           (debug_resolve_file sample_importer,
            {| header := [DEBUG_COLUMN_NAME c; DEBUG_COLUMN_DCID c;
                          DEBUG_COLUMN_LINK c];
               records := map (fun kv => audit_record c (fst kv) (snd kv))
                              [] |})].
Proof.
  intros c input w.
  apply (@header_only_file c w sample_importer no_effects "name" ["val"] []).
  - reflexivity.
  - repeat constructor; simpl; intuition discriminate.
  - reflexivity.
  - reflexivity.
  - reflexivity.
  - reflexivity.
  - reflexivity.
  - reflexivity.
  - reflexivity.
Defined.

(** ** What a run does outside of the importer *)

Lemma filter_entities_Raise (c : Constants) (column : list cell) :
  forall pre0 e, filter_entities c column pre0 = Raise e -> e = AttributeError.
Proof.
  induction column as [|v t IH]; intros pre0 e H; [discriminate|].
  cbn [filter_entities] in H. destruct v as [|x|n]; cbn in H;
    try (now injection H).
  destruct (Str.startswith x (DCID_OVERRIDE_PREFIX c)); cbn [rbind snd] in H.
  - destruct (filter_entities c t _) as [[es p]|e'] eqn:Et; [discriminate|].
    injection H as <-. exact (IH _ _ Et).
  - destruct (filter_entities c t _) as [[es p]|e'] eqn:Et; [discriminate|].
    injection H as <-. exact (IH _ _ Et).
Qed.

(** The ways [_resolve_entities] ends. *)
Lemma resolve_entities_cases (c : Constants) (w : World)
  (self : SimpleStatsImporter) (fx : Effects) :
  (exists e, _resolve_entities c w (self, fx) = (Raise e, (self, fx)))
  \/ exists names,
       map entity (rows (df self)) = map Str names
       /\ ((exists e,
              _resolve_entities c w (self, fx)
              = (Raise e,
                 (self, after_call (candidates c names) (entity_type self) fx)))
           \/ (exists self',
                 _resolve_entities c w (self, fx)
                 = (Ok tt,
                    (self',
                     after_call (candidates c names) (entity_type self) fx))
                 /\ output_dir self' = output_dir self
                 /\ entity_type self' = entity_type self)).
Proof.
  destruct (columns (df self)) as [|c0 cs] eqn:Ec.
  { left. exists IndexError. unfold _resolve_entities, bind. msimpl.
    rewrite iloc_column0_entity, Ec. reflexivity. }
  assert (Hc : columns (df self) <> []) by (rewrite Ec; discriminate).
  destruct (filter_entities c (map entity (rows (df self))) [])
    as [[es p]|e] eqn:Ef.
  - destruct (filter_entities_inv _ _ _ Ef) as [names [Hn [-> ->]]].
    right. exists names. split; [exact Hn|].
    destruct (resolve_entities w (candidates c names) (entity_type self))
      as [dcids|e] eqn:Er.
    + right. eexists. split; [|split].
      * exact (resolve_entities_run c w self fx names Hc Hn Er).
      * reflexivity.
      * reflexivity.
    + left. exists e. unfold _resolve_entities, bind. msimpl.
      rewrite iloc_column0_entity, Ec. msimpl.
      rewrite Hn, filter_entities_names. msimpl.
      unfold dc_resolve_entities. msimpl. rewrite Er. reflexivity.
  - left. exists e. unfold _resolve_entities, bind. msimpl.
    rewrite iloc_column0_entity, Ec. msimpl. rewrite Ef. reflexivity.
Qed.

Lemma same_surroundings_refl (s : state) : same_surroundings s s.
Proof. now repeat split. Qed.

Lemma same_surroundings_trans (s1 s2 s3 : state) :
  same_surroundings s1 s2 -> same_surroundings s2 s3 ->
  same_surroundings s1 s3.
Proof. unfold same_surroundings. intuition congruence. Qed.

Ltac preserves_surroundings :=
  repeat preserves_step same_surroundings_refl same_surroundings_trans.

Lemma cleaning_same_surroundings (c : Constants) (w : World) :
  preserves same_surroundings (cleaning c w).
Proof.
  unfold cleaning, _read_csvs, _drop_ignored_columns, _rename_columns,
    rename_column.
  preserves_surroundings.
Qed.

Lemma write_csv_same_surroundings (w : World) (d : DataFrame) (p : string) :
  preserves same_surroundings (write_csv w d p).
Proof.
  intros s. unfold write_csv. destruct (can_write w p); now repeat split.
Qed.

Lemma after_resolving_same_surroundings (c : Constants) (w : World) :
  preserves same_surroundings (after_resolving c w).
Proof.
  unfold after_resolving, reshape_if_enabled, _unpivot_variables,
    _reorder_columns, _write_csvs.
  preserves_surroundings; apply write_csv_same_surroundings.
Qed.

Lemma do_import_phases (c : Constants) (w : World) (s : state) :
  do_import c w s
  = bind (_init w) (fun _ =>
    bind (cleaning c w) (fun _ =>
    bind (_resolve_entities c w) (fun _ => after_resolving c w))) s.
Proof.
  unfold do_import, cleaning, after_resolving, reshape_if_enabled.
  apply bind_ext. intros _ s1. rewrite !bind_assoc.
  apply bind_ext. intros _ s2. rewrite !bind_assoc. reflexivity.
Qed.

(** X13. A run of [do_import] ensures no directory but the output
    directory, and it does so at most once; it calls the resolver at most
    once, with the entity type of the importer and with names none of which
    carries the override prefix. *)
Theorem do_import_footprint (c : Constants) (w : World) (s : state) :
  let out := do_import c w s in
  (directories (effects_after out) = directories (snd s)
   \/ directories (effects_after out)
      = directories (snd s) ++ [output_dir (fst s)])
  /\ (resolver_calls (effects_after out) = resolver_calls (snd s)
      \/ exists names,
           resolver_calls (effects_after out)
           = resolver_calls (snd s) ++ [(names, entity_type (fst s))]
           /\ forall e, In e names -> is_override c e = false).
Proof.
  cbv zeta. rewrite do_import_phases. destruct s as [self fx].
  unfold effects_after. cbn [fst snd].
  destruct (can_makedirs w (output_dir self)) eqn:Hmk.
  2: { erewrite bind_Raise by (rewrite init_run, Hmk; reflexivity).
       split; now left. }
  erewrite bind_Ok by (rewrite init_run, Hmk; reflexivity).
  set (fx1 := {| directories := directories fx ++ [output_dir self];
                 files := files fx; resolver_calls := resolver_calls fx |}).
  pose proof (cleaning_same_surroundings c w (self, fx1)) as H2.
  destruct (cleaning c w (self, fx1)) as [[[] | e] [self2 fx2]] eqn:E2;
    unfold same_surroundings in H2; cbn [fst snd] in H2;
    destruct H2 as [D2 [C2 [O2 T2]]].
  2: { erewrite bind_Raise by exact E2. cbn [fst snd]. rewrite D2, C2.
       split; [now right | now left]. }
  erewrite bind_Ok by exact E2.
  destruct (resolve_entities_cases c w self2 fx2)
    as [[e E] | [names [_ [[e E] | [self3 [E [O3 T3]]]]]]].
  - erewrite bind_Raise by exact E. cbn [fst snd]. rewrite D2, C2.
    split; [now right | now left].
  - erewrite bind_Raise by exact E.
    cbn [fst snd after_call directories resolver_calls].
    rewrite D2, C2, T2. split; [now right|]. right. exists (candidates c names).
    split; [reflexivity|]. intros x Hx. now apply candidates_In in Hx.
  - erewrite bind_Ok by exact E.
    pose proof (after_resolving_same_surroundings c w
                  (self3, after_call (candidates c names)
                                     (entity_type self2) fx2)) as H4.
    destruct (after_resolving c w _) as [r4 [self4 fx4]].
    unfold same_surroundings in H4. cbn [fst snd] in H4 |- *.
    destruct H4 as [D4 [C4 _]]. rewrite D4, C4.
    cbn [after_call directories resolver_calls]. rewrite D2, C2, T2.
    split; [now right|]. right. exists (candidates c names).
    split; [reflexivity|]. intros x Hx. now apply candidates_In in Hx.
Qed.

(** ** Reshaping after the renaming *)




(** ** Dropping, then renaming *)

Lemma select_after_first (x y : string) (rest : list string)
  (cells : list cell) :
  ~ In x (y :: rest) ->
  hd NaN (select_cells (fun z => negb (Str.mem z [x])) (x :: y :: rest) cells)
  = nth 1 cells NaN.
Proof.
  intros Hx. destruct cells as [|v0 [|v1 vs]]; cbn [select_cells Str.mem existsb];
    rewrite ?String.eqb_refl; cbn [orb negb select_cells]; try reflexivity.
  assert (E : String.eqb y x = false).
  { apply String.eqb_neq. intros ->. apply Hx. now left. }
  rewrite E. reflexivity.
Qed.

(** X15. The columns are dropped before they are renamed, and the renaming
    goes by position: when the first column is the one ignored, the entity
    references are the cells of the second column, which takes the
    entity-identifier name. *)
Theorem ignoring_first_column (c : Constants) (self : SimpleStatsImporter)
  (fx : Effects) (x y : string) (rest : list string) :
  UNPIVOT_VARIABLES c = false ->
  columns (df self) = x :: y :: rest ->
  ~ In x (y :: rest) ->
  ignore_columns self = [x] ->
  exists self',
    bind _drop_ignored_columns (fun _ => _rename_columns c) (self, fx)
    = (Ok tt, (self', fx))
    /\ columns (df self') = COLUMN_DCID c :: rest
    /\ map entity (rows (df self'))
       = map (fun r => nth 1 (snd r) NaN) (rows (df self))
    /\ map fst (rows (df self')) = map fst (rows (df self)).
Proof.
  intros Hu Hc Hx Hi.
  assert (Hall : forall z, In z [x] -> In z (columns (df self))).
  { intros z [<- | []]. rewrite Hc. now left. }
  assert (Hk : filter (fun z => negb (Str.mem z [x])) (x :: y :: rest)
               = y :: rest).
  { change (x :: y :: rest) with ([x] ++ (y :: rest)). rewrite filter_app.
    assert (E0 : filter (fun z => negb (Str.mem z [x])) [x] = []).
    { cbn. now rewrite String.eqb_refl. }
    rewrite E0. apply filter_all_true. intros z Hz. cbn [Str.mem existsb].
    destruct (String.eqb_spec z x) as [-> | _]; [contradiction | reflexivity]. }
  assert (E1 : _drop_ignored_columns (self, fx)
               = (Ok tt,
                  (with_df
                     {| columns := y :: rest;
                        rows := map (fun r =>
                                       (fst r,
                                        select_cells
                                          (fun z => negb (Str.mem z [x]))
                                          (x :: y :: rest) (snd r)))
                                    (rows (df self)) |} self, fx))).
  { unfold _drop_ignored_columns, bind, get_self, lift, set_df.
    cbn [fst snd]. rewrite Hi, (drop_columns_Ok _ _ Hall), Hc, Hk.
    reflexivity. }
  erewrite bind_Ok by exact E1.
  unfold _rename_columns, bind. rewrite rename_column_run, Hu.
  cbn [df with_df columns array_set rows]. eexists. split; [reflexivity|].
  cbn [df with_df columns rows]. split; [reflexivity|].
  rewrite !map_map. split; [|reflexivity].
  apply map_ext. intros r. unfold entity. cbn [snd].
  now apply select_after_first.
Qed.

Lemma ignoring_first_column_witness :
  let c := sample_constants in
  let self := with_df (read_csv scenario_csv)
                (__init__ c "input.csv" "output" "Country" ["name"]) in
  exists self',
    bind _drop_ignored_columns (fun _ => _rename_columns c) (self, no_effects)
    = (Ok tt, (self', no_effects))
    /\ columns (df self') = COLUMN_DCID c :: []
    /\ map entity (rows (df self'))
       = map (fun r => nth 1 (snd r) NaN) (rows (df self))
    /\ map fst (rows (df self')) = map fst (rows (df self)).
Proof.
  intros c self.
  apply (@ignoring_first_column c self no_effects "name" "val" []).
  - reflexivity.
  - reflexivity.
  - simpl. intuition discriminate.
  - reflexivity.
Defined.

(** ** A run on one file, without reshaping *)


